(** * kittens/remote_file/main.py: the remote-file kitten

    A shallow embedding of [kittens/remote_file/main.py] and the properties
    of it that the specification states.

    Python values are modelled by the types the source annotates them with.
    Everything the program does to the outside (the terminal, the local file
    system, the processes it spawns, the editor it starts) goes through one
    explicit [World]: what the outside will answer is scripted in it, and what
    the program did is appended to its [log]. *)

From Stdlib Require Import ZArith Ascii String List Lia.
From stdpp Require Import base tactics option list gmap strings pretty.

Open Scope string_scope.
Open Scope list_scope.
Open Scope Z_scope.

(** ** Python values *)

(** [str(n)] for an [int]. *)
Definition str (n : Z) : string := pretty n.

(** [' '.join(l)] *)
Fixpoint join_sp (l : list string) : string :=
  match l with
  | [] => ""
  | [x] => x
  | x :: l' => x +:+ " " +:+ join_sp l'
  end.

(** [SSHConnectionData] (declared in [kittens/ssh/main.py]) is a named tuple
    [(binary: str, hostname: str, port: Optional[int] = None)]. *)
Record SSHConnectionData := {
  binary : string;
  hostname : string;
  port : option Z
}.

(** Truth value of an [Optional[int]]: [None] and [0] are false. *)
Definition truthy (p : option Z) : bool :=
  match p with
  | None => false
  | Some n => negb (n =? 0)
  end.

(** [str(conn_data.port)], only evaluated where the port is truthy. *)
Definition str_port (p : option Z) : string :=
  match p with
  | None => "None"
  | Some n => str n
  end.

(** ** [simple_copy_command] *)

Definition simple_copy_command (conn_data : SSHConnectionData) (path : string)
  : list string :=
  let cmd := [binary conn_data] in
  let cmd := if truthy (port conn_data)
             then cmd ++ ["-p"; str_port (port conn_data)]
             else cmd in
  cmd ++ [hostname conn_data; "cat"; path].

(** ** Paths ([posixpath]) *)

Definition is_slash (c : ascii) : bool := bool_decide (c = "/"%char).
Definition is_dot (c : ascii) : bool := bool_decide (c = "."%char).

(** [(p[:i], p[i:])] for [i = p.rfind('/') + 1]. *)
Fixpoint rsplit_slash (p : string) : string * string :=
  match p with
  | "" => ("", "")
  | String c r =>
      let '(h, t) := rsplit_slash r in
      match h with
      | "" => if is_slash c then (String c "", t) else ("", String c t)
      | _ => (String c h, t)
      end
  end.

(** [s.rstrip('/')] *)
Fixpoint rstrip_slash (s : string) : string :=
  match s with
  | "" => ""
  | String c r =>
      match rstrip_slash r with
      | "" => if is_slash c then "" else String c ""
      | r' => String c r'
      end
  end.

Definition basename (p : string) : string := snd (rsplit_slash p).

Definition dirname (p : string) : string :=
  let head := fst (rsplit_slash p) in
  match rstrip_slash head with
  | "" => head             (* empty, or nothing but slashes *)
  | head' => head'
  end.

Definition ends_with_slash (a : string) : bool :=
  match String.rev a with
  | String c _ => is_slash c
  | "" => false
  end.

Definition starts_with_slash (b : string) : bool :=
  match b with
  | String c _ => is_slash c
  | "" => false
  end.

(** [os.path.join(a, b)] *)
Definition join (a b : string) : string :=
  if starts_with_slash b then b
  else if bool_decide (a = "") || ends_with_slash a then a +:+ b
  else a +:+ "/" +:+ b.

(** [(s[:i], s[i:])] for [i = s.rfind('.')], if there is a dot. *)
Fixpoint rsplit_dot (s : string) : option (string * string) :=
  match s with
  | "" => None
  | String c r =>
      match rsplit_dot r with
      | Some (b, e) => Some (String c b, e)
      | None => if is_dot c then Some ("", String c r) else None
      end
  end.

Fixpoint all_dots (s : string) : bool :=
  match s with
  | "" => true
  | String c r => is_dot c && all_dots r
  end.

(** [os.path.splitext(p)]: the extension starts at the last dot of the last
    component, unless only dots come before it in that component. *)
Definition splitext (p : string) : string * string :=
  let '(head, name) := rsplit_slash p in
  match rsplit_dot name with
  | Some (b, e) => if all_dots b then (p, "") else (head +:+ b, e)
  | None => (p, "")
  end.

(** [p] is [d] or lies below it. *)
Definition under (d p : string) : bool :=
  bool_decide (p = d) || String.prefix (d +:+ "/") p.

(** ** [shlex.quote] *)

Definition shlex_safe (c : ascii) : bool :=
  let n := nat_of_ascii c in
  ((97 <=? n) && (n <=? 122))%nat || ((65 <=? n) && (n <=? 90))%nat
  || ((48 <=? n) && (n <=? 57))%nat
  || bool_decide (c ∈ ["_"; "@"; "%"; "+"; "="; ":"; ","; "."; "/"; "-"]%char).

Fixpoint all_safe (s : string) : bool :=
  match s with
  | "" => true
  | String c r => shlex_safe c && all_safe r
  end.

Definition dquote : ascii := "034"%char.

(** [s.replace("'", "'\"'\"'")] *)
Fixpoint escape_squotes (s : string) : string :=
  match s with
  | "" => ""
  | String c r =>
      if bool_decide (c = "'"%char)
      then String "'" (String dquote (String "'" (String dquote (String "'" (escape_squotes r)))))
      else String c (escape_squotes r)
  end.

Definition shlex_quote (s : string) : string :=
  if bool_decide (s = "") then "''"
  else if all_safe s then s
  else "'" +:+ escape_squotes s +:+ "'".

(** ** The world outside the program *)

Inductive exn :=
| KeyboardInterrupt
| SystemExit (code : Z)
| EOFError
| OSError
| FileNotFoundError
| FileExistsError
| IsADirectoryError
| NotADirectoryError
| CalledProcessError (returncode : Z)
| ValueError            (* json.JSONDecodeError is a ValueError *)
| TypeError.

(** [except Exception] catches everything but what derives from
    [BaseException] only. *)
Definition is_Exception (e : exn) : bool :=
  match e with
  | KeyboardInterrupt | SystemExit _ => false
  | _ => true
  end.

Definition is_interrupt (e : exn) : bool :=
  match e with
  | KeyboardInterrupt | EOFError => true
  | _ => false
  end.

Definition is_FileNotFoundError (e : exn) : bool :=
  match e with
  | FileNotFoundError => true
  | _ => false
  end.

(** A local file-system entry, with its modification time. *)
Inductive node :=
| Dir (mtime : Z)
| File (mtime : Z) (data : string).

(** Where a child's standard stream goes to or comes from. *)
Inductive stdio :=
| Inherit
| DevNull
| ToFile (p : string)
| FromFile (p : string).

(** A piece of terminal output; the styling functions of [kitty.tui.operations]
    are kept symbolic. *)
Inductive frag :=
| Txt (s : string)
| Styled (s : string) (attrs : string)   (* styled(s, ...) *)
| Faint (s : string)                     (* faint(s) *)
| ResetTerminal                          (* reset_terminal() *)
| SetCursorVisible (b : bool).           (* set_cursor_visible(b) *)

(** What the program did. *)
Inductive event :=
| Print (line : list frag)
| Traceback (e : exn)
| Run (cmd : list string) (sin sout serr : stdio) (rc : Z)
| Start (cmd : list string).

(** One [sys.stdin.buffer.read(1)]. *)
Inductive read1 :=
| Byte (b : ascii)
| NoData                       (* b'' *)
| ReadRaises (e : exn).

(** One line typed at a prompt ([input()], [PathCompleter().input()]). *)
Inductive answer :=
| Typed (s : string)
| InputRaises (e : exn).

(** One child process: its exit status and what it writes to stdout. *)
Record proc := { rc : Z; out : string }.

(** What the editor does to the staged file during one poll interval. *)
Inductive tick :=
| Idle
| Save (mtime : Z) (data : string)
| Unlink.

Record World := {
  fs : gmap string node;            (* the local file system *)
  clock : Z;
  stdin : list read1;               (* raw reads still to come *)
  typed : list answer;              (* lines still to be typed *)
  procs : list proc;                (* the children still to be run *)
  editor_life : exn + list tick;    (* starting the editor: failure, or its polls while alive *)
  tmpnames : list string;           (* names mkdtemp draws from *)
  log : list event;
  (* the process's environment *)
  pid : Z;                          (* os.getpid() *)
  editor : list string;             (* kitty.utils.get_editor() *)
  cachedir : string;                (* kitty.constants.cache_dir() *)
  tempdir : string;                 (* tempfile.gettempdir() *)
  cwd : string;                     (* os.getcwd() *)
  expand : string → string;         (* os.path.expandvars(os.path.expanduser(.)) *)
  abspath : string → string         (* os.path.abspath *)
}.

Definition set_fs (f : gmap string node → gmap string node) (w : World) : World :=
  {| fs := f (fs w); clock := clock w; stdin := stdin w; typed := typed w;
     procs := procs w; editor_life := editor_life w; tmpnames := tmpnames w;
     log := log w; pid := pid w; editor := editor w; cachedir := cachedir w;
     tempdir := tempdir w; cwd := cwd w; expand := expand w; abspath := abspath w |}.

Definition set_clock (c : Z) (w : World) : World :=
  {| fs := fs w; clock := c; stdin := stdin w; typed := typed w;
     procs := procs w; editor_life := editor_life w; tmpnames := tmpnames w;
     log := log w; pid := pid w; editor := editor w; cachedir := cachedir w;
     tempdir := tempdir w; cwd := cwd w; expand := expand w; abspath := abspath w |}.

Definition set_stdin (l : list read1) (w : World) : World :=
  {| fs := fs w; clock := clock w; stdin := l; typed := typed w;
     procs := procs w; editor_life := editor_life w; tmpnames := tmpnames w;
     log := log w; pid := pid w; editor := editor w; cachedir := cachedir w;
     tempdir := tempdir w; cwd := cwd w; expand := expand w; abspath := abspath w |}.

Definition set_typed (l : list answer) (w : World) : World :=
  {| fs := fs w; clock := clock w; stdin := stdin w; typed := l;
     procs := procs w; editor_life := editor_life w; tmpnames := tmpnames w;
     log := log w; pid := pid w; editor := editor w; cachedir := cachedir w;
     tempdir := tempdir w; cwd := cwd w; expand := expand w; abspath := abspath w |}.

Definition set_procs (l : list proc) (w : World) : World :=
  {| fs := fs w; clock := clock w; stdin := stdin w; typed := typed w;
     procs := l; editor_life := editor_life w; tmpnames := tmpnames w;
     log := log w; pid := pid w; editor := editor w; cachedir := cachedir w;
     tempdir := tempdir w; cwd := cwd w; expand := expand w; abspath := abspath w |}.

Definition set_tmpnames (l : list string) (w : World) : World :=
  {| fs := fs w; clock := clock w; stdin := stdin w; typed := typed w;
     procs := procs w; editor_life := editor_life w; tmpnames := l;
     log := log w; pid := pid w; editor := editor w; cachedir := cachedir w;
     tempdir := tempdir w; cwd := cwd w; expand := expand w; abspath := abspath w |}.

Definition emit (e : event) (w : World) : World :=
  {| fs := fs w; clock := clock w; stdin := stdin w; typed := typed w;
     procs := procs w; editor_life := editor_life w; tmpnames := tmpnames w;
     log := log w ++ [e]; pid := pid w; editor := editor w; cachedir := cachedir w;
     tempdir := tempdir w; cwd := cwd w; expand := expand w; abspath := abspath w |}.

(** ** The monad of Python code: state, exceptions, and not returning *)

Inductive outcome (A : Type) :=
| Ret (a : A)
| Raise (e : exn)
| Diverge.                (* blocked for ever on an outside that never answers *)
Arguments Ret {A} a.
Arguments Raise {A} e.
Arguments Diverge {A}.

Definition M (A : Type) : Type := World → outcome A * World.

Definition ret {A} (a : A) : M A := fun w => (Ret a, w).
Definition raise {A} (e : exn) : M A := fun w => (Raise e, w).
Definition diverge {A} : M A := fun w => (Diverge, w).

Definition bind {A B} (m : M A) (k : A → M B) : M B :=
  fun w =>
    match m w with
    | (Ret a, w') => k a w'
    | (Raise e, w') => (Raise e, w')
    | (Diverge, w') => (Diverge, w')
    end.

Declare Scope py_scope.
Delimit Scope py_scope with py.
Notation "x <- m ;; k" := (bind m (fun x => k))
  (at level 100, m at next level, k at level 200, right associativity) : py_scope.
Notation "m ;; k" := (bind m (fun _ => k))
  (at level 100, k at level 200, right associativity) : py_scope.
Open Scope py_scope.

(** [try: m except <those e with handles e>: h e] *)
Definition try_except {A} (m : M A) (handles : exn → bool) (h : exn → M A) : M A :=
  fun w =>
    match m w with
    | (Raise e, w') => if handles e then h e w' else (Raise e, w')
    | r => r
    end.

(** [try: m finally: f] *)
Definition try_finally {A} (m : M A) (f : M unit) : M A :=
  fun w =>
    match m w with
    | (Diverge, w') => (Diverge, w')
    | (r, w') =>
        match f w' with
        | (Ret _, w'') => (r, w'')
        | (Raise e, w'') => (Raise e, w'')
        | (Diverge, w'') => (Diverge, w'')
        end
    end.

Definition gets {A} (f : World → A) : M A := fun w => (Ret (f w), w).
Definition modify (f : World → World) : M unit := fun w => (Ret tt, f w).
Definition when (b : bool) (m : M unit) : M unit := if b then m else ret tt.

Definition print (line : list frag) : M unit := modify (emit (Print line)).

(** ** The local file system

    Paths are compared as written (no normalisation). *)

Definition path_exists (p : string) : M bool :=
  gets (fun w => bool_decide (is_Some (fs w !! p))).

Definition isdir (p : string) : M bool :=
  gets (fun w => match fs w !! p with Some (Dir _) => true | _ => false end).

Definition getmtime (p : string) : M Z :=
  fun w =>
    match fs w !! p with
    | Some (Dir t) | Some (File t _) => (Ret t, w)
    | None => (Raise FileNotFoundError, w)
    end.

(** [open(p, 'wb')] or [open(p, 'w')]: the file is created or truncated. *)
Definition open_w (p : string) : M unit :=
  fun w =>
    match fs w !! p with
    | Some (Dir _) => (Raise IsADirectoryError, w)
    | _ => (Ret tt, set_fs <[p := File (clock w) ""]> w)
    end.

(** [open(p, 'rb')] or [open(p)] *)
Definition open_r (p : string) : M string :=
  fun w =>
    match fs w !! p with
    | Some (File _ d) => (Ret d, w)
    | Some (Dir _) => (Raise IsADirectoryError, w)
    | None => (Raise FileNotFoundError, w)
    end.

(** [f.write(s)] on a file opened for writing at [p] *)
Definition write (p s : string) : M unit :=
  modify (fun w => set_fs <[p := File (clock w) s]> w).

Fixpoint first_fresh (m : gmap string node) (names : list string)
  : option (string * list string) :=
  match names with
  | [] => None
  | n :: names' =>
      match m !! n with
      | None => Some (n, names')
      | Some _ => first_fresh m names'
      end
  end.

(** [tempfile.mkdtemp()]: names are tried until one is not taken. *)
Definition mkdtemp : M string :=
  fun w =>
    match first_fresh (fs w) (tmpnames w) with
    | None => (Raise FileExistsError, set_tmpnames [] w)
    | Some (d, names') =>
        (Ret d, set_fs <[d := Dir (clock w)]> (set_tmpnames names' w))
    end.

(** [shutil.rmtree(d)] *)
Definition rmtree (d : string) : M unit :=
  fun w =>
    match fs w !! d with
    | Some (Dir _) =>
        (Ret tt, set_fs (filter (fun kv => under d kv.1 = false)) w)
    | Some (File _ _) => (Raise NotADirectoryError, w)
    | None => (Raise FileNotFoundError, w)
    end.

Fixpoint makedirs_fs (fuel : nat) (clk : Z) (name : string) (m : gmap string node)
  : exn + gmap string node :=
  match m !! name with
  | Some (Dir _) => inr m
  | Some (File _ _) => inl FileExistsError
  | None =>
      let head := dirname name in
      let above :=
        match fuel with
        | S fuel' =>
            if bool_decide (head ≠ "") && bool_decide (head ≠ name)
            then makedirs_fs fuel' clk head m
            else inr m
        | O => inr m
        end in
      match above with
      | inl FileExistsError => inl NotADirectoryError   (* a file is in the way *)
      | inl e => inl e
      | inr m' => inr (<[name := Dir clk]> m')
      end
  end.

(** [os.makedirs(name, exist_ok=True)] *)
Definition makedirs (name : string) : M unit :=
  fun w =>
    match makedirs_fs (String.length name) (clock w) name (fs w) with
    | inl e => (Raise e, w)
    | inr m => (Ret tt, set_fs (fun _ => m) w)
    end.

(** ** Child processes *)

(** Run [cmd] to completion with the given standard streams. A stdout file has
    been opened for writing by the caller; the child's output ends up in it. *)
Definition run (cmd : list string) (sin sout serr : stdio) : M Z :=
  fun w =>
    match procs w with
    | [] => (Diverge, w)
    | p :: later =>
        let w1 := set_procs later w in
        let w2 := match sout with
                  | ToFile f => set_fs <[f := File (clock w) (out p)]> w1
                  | _ => w1
                  end in
        (Ret (rc p), emit (Run cmd sin sout serr (rc p)) w2)
    end.

(** [subprocess.check_call(cmd)] *)
Definition check_call (cmd : list string) : M unit :=
  r <- run cmd Inherit Inherit Inherit ;;
  if r =? 0 then ret tt else raise (CalledProcessError r).

(** [subprocess.Popen(cmd)] for the editor: the handle is what its polls will
    show, one [tick] for each poll that finds it still running. *)
Definition Popen (cmd : list string) : M (list tick) :=
  fun w =>
    match editor_life w with
    | inl e => (Raise e, w)
    | inr ticks => (Ret ticks, emit (Start cmd) w)
    end.

(** [time.sleep(0.1)] while the editor runs: the editor may rewrite or remove
    the staged file meanwhile. *)
Definition sleep (staged : string) (t : tick) : M unit :=
  modify (fun w =>
    let w1 := set_clock (clock w + 1) w in
    match t with
    | Idle => w1
    | Save mt d => set_fs <[staged := File mt d]> w1
    | Unlink => set_fs (delete staged) w1
    end).

(** ** The terminal *)

(** [input(prompt)] and [PathCompleter().input()] *)
Definition input : M string :=
  fun w =>
    match typed w with
    | [] => (Diverge, w)
    | Typed s :: later => (Ret s, set_typed later w)
    | InputRaises e :: later => (Raise e, set_typed later w)
    end.

Definition ESC : ascii := "027"%char.
Definition CTRL_C : ascii := "003"%char.

(** [q.decode('utf-8')] for one byte: only ASCII decodes. *)
Definition decode1 (b : ascii) : option ascii :=
  if (nat_of_ascii b <? 128)%nat then Some b else None.

(** [.lower()] on one ASCII character *)
Definition lower (c : ascii) : ascii :=
  let n := nat_of_ascii c in
  if ((65 <=? n) && (n <=? 90))%nat then ascii_of_nat (n + 32) else c.

(** [c in allowed] for a one-character string *)
Fixpoint contains (c : ascii) (allowed : string) : bool :=
  match allowed with
  | "" => false
  | String a r => bool_decide (a = c) || contains c r
  end.

Definition str1 (c : ascii) : string := String c "".

(** The [while True] loop of [get_key_press] over the reads to come. *)
Fixpoint key_loop (allowed response : string) (reads : list read1)
  : outcome string * list read1 :=
  match reads with
  | [] => (Diverge, [])
  | q :: later =>
      match q with
      | ReadRaises e =>
          if is_interrupt e then (Ret response, later) else (Raise e, later)
      | NoData => key_loop allowed response later
      | Byte b =>
          if bool_decide (b = ESC) || bool_decide (b = CTRL_C)
          then (Ret response, later)
          else
            match decode1 b with
            | None => key_loop allowed response later   (* suppress(Exception) *)
            | Some c =>
                let response := str1 (lower c) in
                if contains (lower c) allowed
                then (Ret response, later)
                else key_loop allowed response later
            end
      end
  end.

Definition get_key_press (allowed default : string) : M string :=
  fun w =>
    let response := default in
    let '(r, later) := key_loop allowed response (stdin w) in
    (r, set_stdin later w).

(** The [while True] loop of [show_error]. *)
Fixpoint any_key (reads : list read1) : outcome unit * list read1 :=
  match reads with
  | [] => (Diverge, [])
  | Byte _ :: later => (Ret tt, later)
  | NoData :: later => any_key later
  | ReadRaises e :: later =>
      if is_interrupt e then (Ret tt, later) else (Raise e, later)
  end.

Definition show_error (msg : string) : M unit :=
  print [Styled msg "fg=red"] ;;
  print [] ;;
  print [Txt "Press any key to exit..."] ;;
  fun w => let '(r, later) := any_key (stdin w) in (r, set_stdin later w).

(** ** The program *)

(** [RemoteFileCLIOptions]. The text of [--ssh-connection-data] is kept by what
    [SSHConnectionData( *json.loads(text))] makes of it. *)
Inductive payload :=
| NotJSON                              (* empty or not JSON: json.loads raises ValueError *)
| BadShape                             (* not unpackable into two or three fields: TypeError *)
| Fields (c : SSHConnectionData).

Record RemoteFileCLIOptions := {
  mode : string;
  path : option string;
  opt_hostname : option string;
  ssh_connection_data : option payload    (* None: the option was not given *)
}.

Definition Result := option string.

(** [x or d] for an [Optional[str]] *)
Definition or_else (x : option string) (d : string) : string :=
  match x with
  | Some (String c s) => String c s
  | _ => d
  end.

(** [str(x)] for an [Optional[str]], as [print] shows it *)
Definition str_opt (x : option string) : string :=
  match x with
  | Some s => s
  | None => "None"
  end.

Definition key (x : string) : frag := Styled x "bold fg=green".

Definition ask_action (opts : RemoteFileCLIOptions) : M string :=
  print [Txt "What would you like to do with the remote file on ";
         Styled (or_else (opt_hostname opts) "unknown") "bold fg=magenta"; Txt ":"] ;;
  print [Styled (or_else (path opts) "") "fg=yellow fg_intense"] ;;
  print [] ;;
  print [key "E"; Txt "dit the file"] ;;
  print [Faint ("The file will be downloaded and opened in an editor. Any changes you save will"
                +:+ " be automatically sent back to the remote machine")] ;;
  print [] ;;
  print [key "O"; Txt "pen the file"] ;;
  print [Faint "The file will be downloaded and opened by the default open program"] ;;
  print [] ;;
  print [key "S"; Txt "ave the file"] ;;
  print [Faint "The file will be downloaded to a destination you select"] ;;
  print [] ;;
  print [key "C"; Txt "ancel"] ;;
  print [] ;;
  response <- get_key_press "ceos" "c" ;;
  ret (if bool_decide (response = "e") then "edit"
       else if bool_decide (response = "o") then "open"
       else if bool_decide (response = "s") then "save"
       else "cancel").

(** *** [ControlMaster] *)

Record ControlMaster := {
  conn_data : SSHConnectionData;
  remote_path : string;
  cmd_prefix : list string;
  batch_cmd_prefix : list string;
  tdir : string;                  (* set by __enter__ *)
  dest : string                   (* set by __enter__ *)
}.

(** [__init__]. [cmd] and [self.cmd_prefix] are one list object, so the port
    option appended to [cmd] is in [self.cmd_prefix] too. *)
Definition ControlMaster_init (conn : SSHConnectionData) (rpath : string)
  : M ControlMaster :=
  getpid <- gets pid ;;
  let cmd := [binary conn; "-o";
              "ControlPath=~/.ssh/kitty-master-" +:+ str getpid +:+ "-%r@%h:%p";
              "-o"; "TCPKeepAlive=yes"; "-o"; "ControlPersist=yes"] in
  let cmd := if truthy (port conn)
             then cmd ++ ["-p"; str_port (port conn)]
             else cmd in
  ret {| conn_data := conn; remote_path := rpath;
         cmd_prefix := cmd;
         batch_cmd_prefix := cmd ++ ["-o"; "BatchMode=yes"];
         tdir := ""; dest := "" |}.

Definition ControlMaster_enter (self : ControlMaster) : M ControlMaster :=
  check_call (cmd_prefix self
              ++ ["-o"; "ControlMaster=auto"; "-fN"; hostname (conn_data self)]) ;;
  check_call (batch_cmd_prefix self ++ ["-O"; "check"; hostname (conn_data self)]) ;;
  d <- mkdtemp ;;
  ret {| conn_data := conn_data self; remote_path := remote_path self;
         cmd_prefix := cmd_prefix self; batch_cmd_prefix := batch_cmd_prefix self;
         tdir := d; dest := join d (basename (remote_path self)) |}.

(** [__exit__]; its result [True] tells [with] to drop a pending exception. *)
Definition ControlMaster_exit (self : ControlMaster) : M bool :=
  run (batch_cmd_prefix self ++ ["-O"; "exit"; hostname (conn_data self)])
      DevNull DevNull DevNull ;;
  rmtree (tdir self) ;;
  ret true.

Definition is_alive (self : ControlMaster) : M bool :=
  r <- run (batch_cmd_prefix self ++ ["-O"; "check"; hostname (conn_data self)])
           DevNull DevNull DevNull ;;
  ret (r =? 0).

Definition download (self : ControlMaster) : M bool :=
  open_w (dest self) ;;
  r <- run (batch_cmd_prefix self
            ++ [hostname (conn_data self); "cat"; remote_path self])
           DevNull (ToFile (dest self)) DevNull ;;
  ret (r =? 0).

Definition upload_cmd (self : ControlMaster) (suppress_output : bool) : list string :=
  let cmd_prefix := if suppress_output then cmd_prefix self
                    else batch_cmd_prefix self in
  cmd_prefix ++ [hostname (conn_data self); "cat"; ">"; remote_path self].

Definition upload (self : ControlMaster) (suppress_output : bool) : M bool :=
  let cmd := upload_cmd self suppress_output in
  when (negb suppress_output) (print [Txt (join_sp (map shlex_quote cmd))]) ;;
  let redirect := if suppress_output then DevNull else Inherit in
  open_r (dest self) ;;
  r <- run cmd (FromFile (dest self)) redirect redirect ;;
  ret (r =? 0).

(** [with ControlMaster(conn, rpath) as master: body master] *)
Definition with_ControlMaster (conn : SSHConnectionData) (rpath : string)
    (body : ControlMaster → M unit) : M unit :=
  self <- ControlMaster_init conn rpath ;;
  master <- ControlMaster_enter self ;;
  fun w =>
    match body master w with
    | (Diverge, w') => (Diverge, w')
    | (Ret _, w') => (ControlMaster_exit master ;; ret tt) w'
    | (Raise e, w') =>
        (suppressed <- ControlMaster_exit master ;;
         if suppressed : bool then ret tt else raise e) w'
    end.

Definition save_output (cmd : list string) (dest_path : string) : M bool :=
  open_w dest_path ;;
  r <- run cmd Inherit (ToFile dest_path) Inherit ;;
  ret (r =? 0).

(** *** [save_as] *)

Definition last_used_store (ddir : string) : string :=
  join ddir "remote-file-last-used.txt".

(** Lines 213-240 of [save_as]: the destination asked for, [None] when the
    prompt was interrupted. *)
Definition ask_destination (rpath : string) : M (option string) :=
  ddir <- gets cachedir ;;
  makedirs ddir ;;
  let last_used_store_path := last_used_store ddir in
  last_used_path <- try_except (open_r last_used_store_path)
                      is_FileNotFoundError (fun _ => gets tempdir) ;;
  let last_used_file := join last_used_path (basename rpath) in
  print [Txt "Where do you wish to save the file? Leaving it blank will save it as:";
         Txt " "; Styled last_used_file "fg=yellow"] ;;
  getcwd <- gets cwd ;;
  print [Txt "Relative paths will be resolved from:"; Txt " ";
         Styled getcwd "fg_intense bold"] ;;
  print [] ;;
  typed <- try_except (d <- input ;; ret (Some d))
             is_interrupt (fun _ => ret None) ;;
  match typed with
  | None => ret None
  | Some "" => ret (Some last_used_file)
  | Some d =>
      expanded <- gets (fun w => expand w d) ;;
      is_dir <- isdir expanded ;;
      let d' := if is_dir : bool then join expanded (basename rpath) else expanded in
      absolute <- gets (fun w => abspath w d') ;;
      open_w last_used_store_path ;;
      write last_used_store_path (dirname absolute) ;;
      ret (Some d')
  end.

(** The name auto-rename tries for counter [c]. *)
Definition numbered (d : string) (c : nat) : string :=
  let '(b, ext) := splitext d in
  b +:+ "-" +:+ pretty c +:+ ext.

(** Lines 253-259: [while os.path.exists(q)]; every test of the condition
    takes one unit of [fuel]. *)
Fixpoint rename_loop (fuel : nat) (m : gmap string node) (d q : string) (c : nat)
  : option string :=
  match fuel with
  | O => None
  | S fuel' =>
      if bool_decide (is_Some (m !! q))
      then let c := S c in rename_loop fuel' m d (numbered d c) c
      else Some q
  end.

(** The numbered names differ from each other, so the loop ends within
    [size m + 2] tests. *)
Definition auto_rename (d : string) : M string :=
  fun w =>
    match rename_loop (S (S (size (fs w)))) (fs w) d d 0 with
    | Some q => (Ret q, w)
    | None => (Diverge, w)
    end.

(** Lines 260-264 of [save_as]: the copy to the destination settled on. *)
Definition save_to (conn : SSHConnectionData) (rpath d : string) : M unit :=
  when (negb (bool_decide (dirname d = ""))) (makedirs (dirname d)) ;;
  let cmd := simple_copy_command conn rpath in
  ok <- save_output cmd d ;;
  when (negb ok) (show_error "Failed to copy file from remote machine").

(** [save_as]; [fuel] bounds how often "new name" can restart it. *)
Fixpoint save_as_rec (fuel : nat) (conn : SSHConnectionData) (rpath : string)
  : M unit :=
  match fuel with
  | O => diverge
  | S fuel' =>
      asked <- ask_destination rpath ;;
      match asked with
      | None => ret tt
      | Some d =>
          taken <- path_exists d ;;
          if taken : bool then
            print [ResetTerminal] ;;
            print [Txt "The file "; Styled d "fg=yellow";
                   Txt " already exists. What would you like to do?"] ;;
            print [key "O"; Txt "verwrite  "; key "A"; Txt "bort  Auto ";
                   key "R"; Txt "ename "; key "N"; Txt "ew name"] ;;
            response <- get_key_press "anor" "a" ;;
            if bool_decide (response = "a") then ret tt
            else if bool_decide (response = "n") then
              print [ResetTerminal] ;; save_as_rec fuel' conn rpath
            else
              d <- (if bool_decide (response = "r") then auto_rename d else ret d) ;;
              save_to conn rpath d
          else save_to conn rpath d
      end
  end.

(** Each restart takes one typed line, so this much fuel is never used up
    (see [save_as_rec_fuel]). *)
Definition save_as (conn : SSHConnectionData) (rpath : string) : M unit :=
  fun w => save_as_rec (S (length (typed w))) conn rpath w.

(** *** [handle_action] *)

(** Lines 287-293: the poll loop, over the polls that find the editor alive. *)
Fixpoint edit_poll (master : ControlMaster) (editor_process : list tick) (mtime : Z)
  : M unit :=
  match editor_process with
  | [] => ret tt
  | t :: later =>
      sleep (dest master) t ;;
      newmtime <- getmtime (dest master) ;;
      if newmtime >? mtime then
        alive <- is_alive master ;;
        when alive (upload master true ;; ret tt) ;;
        edit_poll master later newmtime
      else edit_poll master later mtime
  end.

(** Lines 294-299: the final upload. *)
Definition edit_finish (master : ControlMaster) (rpath : string) : M unit :=
  print [ResetTerminal] ;;
  alive <- is_alive master ;;
  if alive : bool then
    ok <- upload master false ;;
    when (negb ok) (show_error ("Failed to upload " +:+ rpath))
  else
    show_error ("Failed to upload " +:+ rpath +:+ ", SSH master process died").

(** Lines 280-299: the body of the [with] statement. *)
Definition edit_session (rpath : string) (master : ControlMaster) : M unit :=
  ok <- download master ;;
  if negb ok then
    show_error ("Failed to download " +:+ rpath)       (* return None *)
  else
    mtime <- getmtime (dest master) ;;
    print [ResetTerminal] ;;
    get_editor <- gets editor ;;
    editor_process <- Popen (get_editor ++ [dest master]) ;;
    edit_poll master editor_process mtime ;;
    edit_finish master rpath.

Definition decode_conn (cli_opts : RemoteFileCLIOptions) : M SSHConnectionData :=
  match ssh_connection_data cli_opts with
  | None | Some NotJSON => raise ValueError      (* json.loads('') as well *)
  | Some BadShape => raise TypeError
  | Some (Fields c) => ret c
  end.

Definition handle_action (action : string) (cli_opts : RemoteFileCLIOptions)
  : M Result :=
  conn <- decode_conn cli_opts ;;
  let rpath := or_else (path cli_opts) "" in
  if bool_decide (action = "open") then
    print [Txt (join_sp ["Opening"; str_opt (path cli_opts); "from";
                         str_opt (opt_hostname cli_opts)])] ;;
    let cmd := simple_copy_command conn rpath in
    d <- mkdtemp ;;
    let dest := join d (basename rpath) in
    ok <- save_output cmd dest ;;
    if ok : bool then ret (Some dest)
    else show_error "Failed to copy file from remote machine" ;; ret None
  else if bool_decide (action = "edit") then
    print [Txt (join_sp ["Editing"; str_opt (path cli_opts); "from";
                         str_opt (opt_hostname cli_opts)])] ;;
    with_ControlMaster conn rpath (edit_session rpath) ;;
    ret None
  else if bool_decide (action = "save") then
    print [Txt (join_sp ["Saving"; str_opt (path cli_opts); "from";
                         str_opt (opt_hostname cli_opts)])] ;;
    save_as conn rpath ;;
    ret None
  else ret None.

(** *** [main] *)

(** What [parse_args] (of [kitty.cli]) makes of the command line. *)
Inductive parsed :=
| ParseExit (code : Z) (msg : string)      (* raises SystemExit *)
| Parsed (cli_opts : RemoteFileCLIOptions).

Definition main (args : parsed) : M Result :=
  cli_opts <- match args with
              | Parsed o => ret o
              | ParseExit code msg =>
                  when (negb (code =? 0))
                    (print [Txt msg] ;;
                     print [Txt "Press enter to quit..."] ;; input ;; ret tt) ;;
                  raise (SystemExit code)
              end ;;
  print [SetCursorVisible false] ;;
  action <- try_finally (ask_action cli_opts) (print [ResetTerminal]) ;;
  try_except (handle_action action cli_opts) is_Exception
    (fun e =>
       print [ResetTerminal] ;;
       modify (emit (Traceback e)) ;;
       show_error "Failed with unhandled exception" ;;
       ret None).

(** ** Sample inputs *)

Definition box : SSHConnectionData :=
  {| binary := "ssh"; hostname := "box"; port := None |}.

Definition box_port0 : SSHConnectionData :=
  {| binary := "ssh"; hostname := "box"; port := Some 0 |}.

Definition box_port22 : SSHConnectionData :=
  {| binary := "ssh"; hostname := "box"; port := Some 22 |}.

(** A quiet world: nothing on disk but the directories, nothing typed, no
    child to run, an editor that exits before the first poll. *)
Definition quiet : World :=
  {| fs := {[ "/tmp" := Dir 0; "/cache" := Dir 0 ]};
     clock := 1; stdin := []; typed := []; procs := [];
     editor_life := inr []; tmpnames := ["/tmp/k1"; "/tmp/k2"]; log := [];
     pid := 4242; editor := ["vi"]; cachedir := "/cache"; tempdir := "/tmp";
     cwd := "/home/u"; expand := fun p => p;
     abspath := fun p => if starts_with_slash p then p else join "/home/u" p |}.

Definition with_editor (l : exn + list tick) (w : World) : World :=
  {| fs := fs w; clock := clock w; stdin := stdin w; typed := typed w;
     procs := procs w; editor_life := l; tmpnames := tmpnames w;
     log := log w; pid := pid w; editor := editor w; cachedir := cachedir w;
     tempdir := tempdir w; cwd := cwd w; expand := expand w; abspath := abspath w |}.

Definition exit_ok : proc := {| rc := 0; out := "" |}.
Definition exit_fail : proc := {| rc := 255; out := "" |}.
Definition cat_hosts : proc := {| rc := 0; out := "127.0.0.1 localhost" |}.

Definition opts_for (p : option payload) : RemoteFileCLIOptions :=
  {| mode := "ask"; path := Some "/etc/hosts"; opt_hostname := Some "box";
     ssh_connection_data := p |}.

(** What [ControlMaster(box, '/etc/hosts')] is before it is entered. *)
Definition box_self : ControlMaster :=
  {| conn_data := box; remote_path := "/etc/hosts";
     cmd_prefix := ["ssh"; "-o"; "ControlPath=~/.ssh/kitty-master-4242-%r@%h:%p";
                    "-o"; "TCPKeepAlive=yes"; "-o"; "ControlPersist=yes"];
     batch_cmd_prefix := ["ssh"; "-o"; "ControlPath=~/.ssh/kitty-master-4242-%r@%h:%p";
                          "-o"; "TCPKeepAlive=yes"; "-o"; "ControlPersist=yes";
                          "-o"; "BatchMode=yes"];
     tdir := ""; dest := "" |}.

(** The master of an entered session on [box] for [/etc/hosts]. *)
Definition box_master : ControlMaster :=
  {| conn_data := box; remote_path := "/etc/hosts";
     cmd_prefix := ["ssh"; "-o"; "ControlPath=~/.ssh/kitty-master-4242-%r@%h:%p";
                    "-o"; "TCPKeepAlive=yes"; "-o"; "ControlPersist=yes"];
     batch_cmd_prefix := ["ssh"; "-o"; "ControlPath=~/.ssh/kitty-master-4242-%r@%h:%p";
                          "-o"; "TCPKeepAlive=yes"; "-o"; "ControlPersist=yes";
                          "-o"; "BatchMode=yes"];
     tdir := "/tmp/k1"; dest := "/tmp/k1/hosts" |}.

(** ** Reading the log *)

(** What [show_error msg] prints. *)
Definition error_screen (msg : string) : list event :=
  [Print [Styled msg "fg=red"]; Print []; Print [Txt "Press any key to exit..."]].

(** The liveness probe of a master. *)
Definition probe_cmd (master : ControlMaster) : list string :=
  batch_cmd_prefix master ++ ["-O"; "check"; hostname (conn_data master)].

Definition probe (master : ControlMaster) (r : Z) : event :=
  Run (probe_cmd master) DevNull DevNull DevNull r.

Definition is_run (e : event) : bool :=
  match e with
  | Run _ _ _ _ _ => true
  | _ => false
  end.

(** Uploads are the children fed from a file. *)
Definition is_upload (e : event) : bool :=
  match e with
  | Run _ (FromFile _) _ _ _ => true
  | _ => false
  end.

Definition is_live_probe (master : ControlMaster) (e : option event) : bool :=
  match e with
  | Some (Run cmd DevNull DevNull DevNull r) =>
      bool_decide (cmd = probe_cmd master) && (r =? 0)
  | _ => false
  end.

Definition is_dead_probe (master : ControlMaster) (e : event) : bool :=
  match e with
  | Run cmd DevNull DevNull DevNull r =>
      bool_decide (cmd = probe_cmd master) && negb (r =? 0)
  | _ => false
  end.

(** The last child run in [l], or [prev] if there is none. *)
Fixpoint last_run (prev : option event) (l : list event) : option event :=
  match l with
  | [] => prev
  | e :: l' => last_run (if is_run e then Some e else prev) l'
  end.

(** Every upload in [l] is the next child after one of the master's probes
    that exited with status 0; [prev] is the child run last before [l]. *)
Fixpoint uploads_guarded (master : ControlMaster) (prev : option event)
    (l : list event) : bool :=
  match l with
  | [] => true
  | e :: l' =>
      (if is_upload e then is_live_probe master prev else true)
      && uploads_guarded master (if is_run e then Some e else prev) l'
  end.

(** No upload comes after a probe that exited with a non-zero status. *)
Fixpoint no_upload_once_dead (master : ControlMaster) (dead : bool)
    (l : list event) : bool :=
  match l with
  | [] => true
  | e :: l' =>
      negb (dead && is_upload e)
      && no_upload_once_dead master (dead || is_dead_probe master e) l'
  end.

(** What tells the user of a failure: an error line or a traceback. *)
Definition is_report (e : event) : bool :=
  match e with
  | Print [Styled _ "fg=red"] | Traceback _ => true
  | _ => false
  end.

(** ** What a piece of code may log and touch *)

(** The event lists a piece of code may append: closed under concatenation,
    and with room for every event that is not an upload. *)
Class Admits (T : list event → Prop) := {
  admits_nil : T [];
  admits_app d1 d2 : T d1 → T d2 → T (d1 ++ d2);
  admits_other e : is_upload e = false → T [e]
}.

(** From [w] to [w']: the log grew by events in [T], and the files outside
    [K] are as they were. *)
Definition step_rel (K : string → Prop) (T : list event → Prop) (w w' : World) : Prop :=
  (∃ d, log w' = log w ++ d ∧ T d) ∧ ∀ p, ¬ K p → fs w' !! p = fs w !! p.

(** Whatever [m] does, it does no more than that. *)
Definition sat (K : string → Prop) (T : list event → Prop) {A} (m : M A) : Prop :=
  ∀ w, step_rel K T w (m w).2.

(** Event lists in which every upload is guarded, whatever was run before. *)
Definition self_guarded (master : ControlMaster) (d : list event) : Prop :=
  ∀ prev, uploads_guarded master prev d = true.

(** Event lists in which every upload is guarded, given that the child run
    last before them was a live probe. *)
Definition guarded_after_probe (master : ControlMaster) (d : list event) : Prop :=
  ∀ prev, is_live_probe master prev = true → uploads_guarded master prev d = true.

Ltac use lem := apply lem; try apply _; try assumption.

(** ** Reading the keyboard script *)

(** A read that [get_key_press] passes over: nothing read, a byte that does
    not decode, or a key that is not allowed. *)
Definition passed_over (allowed : string) (q : read1) : bool :=
  match q with
  | NoData => true
  | Byte b =>
      negb (bool_decide (b = ESC) || bool_decide (b = CTRL_C))
      && match decode1 b with
         | None => true
         | Some c => negb (contains (lower c) allowed)
         end
  | ReadRaises _ => false
  end.

(** A read that ends the loop of [get_key_press] without a choice. *)
Definition ends_loop (q : read1) : bool :=
  match q with
  | Byte b => bool_decide (b = ESC) || bool_decide (b = CTRL_C)
  | ReadRaises e => is_interrupt e
  | NoData => false
  end.

(** The value of [response] after the reads [reads] were passed over. *)
Fixpoint pending (response : string) (reads : list read1) : string :=
  match reads with
  | [] => response
  | Byte b :: later =>
      pending (match decode1 b with
               | Some c => str1 (lower c)
               | None => response
               end) later
  | _ :: later => pending response later
  end.

(** ** Relations between the world before and after *)

(** Whatever [m] does, the world after is related by [R] to the world before. *)
Definition always (R : relation World) {A} (m : M A) : Prop :=
  ∀ w, R w (m w).2.

(** Nothing was printed: the log grew by child processes only. *)
Definition silent (w w' : World) : Prop :=
  ∃ d, log w' = log w ++ d ∧ Forall (fun e => is_run e = true) d.

(** Every entry of the file system outside [K] is still there, unchanged. *)
Definition keeps_files (K : string → Prop) (w w' : World) : Prop :=
  ∀ p n, ¬ K p → fs w !! p = Some n → fs w' !! p = Some n.

(** No child was run and no file touched. *)
Definition offline (w w' : World) : Prop :=
  procs w' = procs w ∧ fs w' = fs w ∧
  ∃ d, log w' = log w ++ d ∧ Forall (fun e => is_run e = false) d.

(** Once a probe has reported the master dead, none reports it alive. *)
Fixpoint stays_dead (master : ControlMaster) (dead : bool) (l : list event) : bool :=
  match l with
  | [] => true
  | e :: l' =>
      negb (dead && is_live_probe master (Some e))
      && stays_dead master (dead || is_dead_probe master e) l'
  end.

(** A poll interval in which the staged file gets no modification time
    later than [mtime]. *)
Definition not_newer (mtime : Z) (t : tick) : bool :=
  match t with
  | Idle => true
  | Save mt _ => mt <=? mtime
  | Unlink => false
  end.

(** [s] has no slash in it. *)
Fixpoint slash_free (s : string) : bool :=
  match s with
  | "" => true
  | String c r => negb (is_slash c) && slash_free r
  end.

(** * Properties *)

(** ** The copy command *)

Example box_master_entered :
  (self <- ControlMaster_init box "/etc/hosts" ;; ControlMaster_enter self)
    (set_procs [exit_ok; exit_ok] quiet)
  = (Ret box_master,
     emit (Run (batch_cmd_prefix box_master ++ ["-O"; "check"; "box"])
               Inherit Inherit Inherit 0)
       (emit (Run (cmd_prefix box_master ++ ["-o"; "ControlMaster=auto"; "-fN"; "box"])
                  Inherit Inherit Inherit 0)
          (set_fs <["/tmp/k1" := Dir 1]> (set_tmpnames ["/tmp/k2"] quiet)))).
Proof. reflexivity. Qed.

(** C5, as the code has it: the port option is a matter of the port's truth
    value. With no port, or with port 0, the command is
    [binary, hostname, 'cat', path]; with any other port it is
    [binary, '-p', str(port), hostname, 'cat', path]. *)
Theorem simple_copy_command_port (c : SSHConnectionData) (rpath : string) :
  simple_copy_command c rpath =
    match port c with
    | None => [binary c; hostname c; "cat"; rpath]
    | Some p =>
        if decide (p = 0)
        then [binary c; hostname c; "cat"; rpath]
        else [binary c; "-p"; str p; hostname c; "cat"; rpath]
    end.
Proof.
  unfold simple_copy_command, truthy, str_port.
  destruct (port c) as [p|]; [|reflexivity].
  destruct (decide (p = 0)) as [->|Hp]; [reflexivity|].
  apply Z.eqb_neq in Hp. rewrite Hp. reflexivity.
Qed.

(** C5 fails as stated: port 0 is a port that is set, and no [-p 0] is
    inserted for it. *)
Lemma simple_copy_command_port_zero :
  port box_port0 = Some 0 ∧
  simple_copy_command box_port0 "/etc/hosts" = ["ssh"; "box"; "cat"; "/etc/hosts"] ∧
  simple_copy_command box_port0 "/etc/hosts"
    ≠ ["ssh"; "-p"; "0"; "box"; "cat"; "/etc/hosts"].
Proof. repeat split. discriminate. Qed.

Example simple_copy_command_22 :
  simple_copy_command box_port22 "/etc/hosts"
  = ["ssh"; "-p"; "22"; "box"; "cat"; "/etc/hosts"].
Proof. reflexivity. Qed.

(** ** Reading one key *)

(** C10 at a failing input: a key that is not allowed, then Escape. The key
    read last is returned, which is neither the default nor allowed. *)
Theorem get_key_press_returns_rejected_key :
  get_key_press "anor" "a" (set_stdin [Byte "x"; Byte ESC] quiet)
    = (Ret "x", quiet)
  ∧ "x" ≠ "a" ∧ contains "x" "anor" = false.
Proof. repeat split. discriminate. Qed.

(** What does hold: the answer is the default or the lower-cased form of a
    byte that was read. *)
Lemma key_loop_answer (allowed : string) (reads : list read1) :
  ∀ response r later,
    key_loop allowed response reads = (Ret r, later) →
    r = response ∨ ∃ b c, Byte b ∈ reads ∧ decode1 b = Some c ∧ r = str1 (lower c).
Proof.
  induction reads as [|q reads IH]; intros response r later H; simpl in H.
  - discriminate.
  - destruct q as [b| |e].
    + destruct (bool_decide (b = ESC) || bool_decide (b = CTRL_C)).
      { left. congruence. }
      destruct (decode1 b) as [c|] eqn:Hd.
      * destruct (contains (lower c) allowed).
        { right. exists b, c. split; [left|]. split; [done|congruence]. }
        apply IH in H as [->|(b' & c' & Hin & Hd' & ->)].
        { right. exists b, c. split; [left|done]. }
        right. exists b', c'. split; [by right|done].
      * apply IH in H as [->|(b' & c' & Hin & Hd' & ->)]; [by left|].
        right. exists b', c'. split; [by right|done].
    + apply IH in H as [->|(b' & c' & Hin & Hd' & ->)]; [by left|].
      right. exists b', c'. split; [by right|done].
    + destruct (is_interrupt e); [left; congruence|discriminate].
Qed.

(** In the conflict menu of [save_as] such an answer counts as "overwrite". *)
Example stray_key_then_escape_overwrites :
  let w := set_stdin [Byte "x"; Byte ESC]
             (set_typed [Typed "/home/u/notes"]
                (set_procs [cat_hosts]
                   (set_fs <["/home/u/notes" := File 0 "precious"]> quiet))) in
  let '(r, w') := save_as box "/etc/hosts" w in
  r = Ret tt ∧ fs w' !! "/home/u/notes" = Some (File 1 "127.0.0.1 localhost").
Proof. vm_compute. split; reflexivity. Qed.

(** ** Dispatch *)

(** C9, as the code has it: the connection data is decoded before the action
    is looked at, so "cancel" does nothing and gives [None] when the data
    decodes, and raises otherwise. *)
Theorem handle_action_cancel (cli_opts : RemoteFileCLIOptions) (w : World) :
  handle_action "cancel" cli_opts w =
    match ssh_connection_data cli_opts with
    | Some (Fields _) => (Ret None, w)
    | Some BadShape => (Raise TypeError, w)
    | Some NotJSON | None => (Raise ValueError, w)
    end.
Proof.
  unfold handle_action, decode_conn, bind.
  destruct (ssh_connection_data cli_opts) as [[| |c]|]; reflexivity.
Qed.

(** C9 fails as stated: with the connection data missing, "cancel" raises. *)
Lemma handle_action_cancel_missing_data :
  handle_action "cancel" (opts_for None) quiet = (Raise ValueError, quiet).
Proof. reflexivity. Qed.

(** [main] then reports it as an unhandled failure. *)
Example main_cancel_missing_data :
  let w := set_stdin [Byte "c"; Byte " "] quiet in
  let '(r, w') := main (Parsed (opts_for None)) w in
  r = Ret None ∧
  drop 16 (log w') =
    [Print [ResetTerminal]; Traceback ValueError;
     Print [Styled "Failed with unhandled exception" "fg=red"]; Print [];
     Print [Txt "Press any key to exit..."]].
Proof. vm_compute. split; reflexivity. Qed.

(** ** Uploading *)

(** The prefixes [ControlMaster.__init__] builds. *)
Lemma ControlMaster_init_prefixes conn rpath w0 :
  ∃ self,
    ControlMaster_init conn rpath w0 = (Ret self, w0) ∧
    conn_data self = conn ∧ remote_path self = rpath ∧
    cmd_prefix self =
      [binary conn; "-o";
       "ControlPath=~/.ssh/kitty-master-" +:+ str (pid w0) +:+ "-%r@%h:%p";
       "-o"; "TCPKeepAlive=yes"; "-o"; "ControlPersist=yes"]
      ++ (if truthy (port conn) then ["-p"; str_port (port conn)] else []) ∧
    batch_cmd_prefix self = cmd_prefix self ++ ["-o"; "BatchMode=yes"].
Proof.
  unfold ControlMaster_init, bind, gets, ret. eexists. split; [reflexivity|].
  simpl. repeat split. destruct (truthy (port conn)); reflexivity.
Qed.

(** [__enter__] changes nothing but the scratch directory and the staged path. *)
Lemma ControlMaster_enter_fields self master w w' :
  ControlMaster_enter self w = (Ret master, w') →
  conn_data master = conn_data self ∧ remote_path master = remote_path self ∧
  cmd_prefix master = cmd_prefix self ∧
  batch_cmd_prefix master = batch_cmd_prefix self ∧
  dest master = join (tdir master) (basename (remote_path self)).
Proof.
  unfold ControlMaster_enter, bind, ret. intros H.
  destruct (check_call _ w) as [[[]|e|] w1]; try discriminate.
  destruct (check_call _ w1) as [[[]|e|] w2]; try discriminate.
  destruct (mkdtemp w2) as [[d|e|] w3]; try discriminate.
  injection H as <- <-. simpl. done.
Qed.

(** C8, as the code has it: an upload runs the control prefix, followed by
    [-o BatchMode=yes] when the output is shown and by nothing when it is
    suppressed, then the host name and [cat > remote_path], with the staged
    file as stdin. When the output is shown the quoted command line is printed
    first and the child inherits stdout and stderr; when it is suppressed
    nothing is printed and both go to the null device. *)
Theorem upload_command conn rpath w0 self w1 w1' master
    (suppress_output : bool) w p later mt data :
  ControlMaster_init conn rpath w0 = (Ret self, w0) →
  ControlMaster_enter self w1 = (Ret master, w1') →
  fs w !! dest master = Some (File mt data) →
  procs w = p :: later →
  let cmd :=
    [binary conn; "-o";
     "ControlPath=~/.ssh/kitty-master-" +:+ str (pid w0) +:+ "-%r@%h:%p";
     "-o"; "TCPKeepAlive=yes"; "-o"; "ControlPersist=yes"]
    ++ (if truthy (port conn) then ["-p"; str_port (port conn)] else [])
    ++ (if suppress_output then [] else ["-o"; "BatchMode=yes"])
    ++ [hostname conn; "cat"; ">"; rpath] in
  let redirect := if suppress_output then DevNull else Inherit in
  ∃ w', upload master suppress_output w = (Ret (rc p =? 0), w') ∧
        fs w' = fs w ∧
        log w' = log w
                 ++ (if suppress_output then []
                     else [Print [Txt (join_sp (map shlex_quote cmd))]])
                 ++ [Run cmd (FromFile (dest master)) redirect redirect (rc p)].
Proof.
  intros Hinit Henter Hfile Hprocs cmd redirect.
  destruct (ControlMaster_init_prefixes conn rpath w0)
    as (self' & Hinit' & Hconn & Hpath & Hpre & Hbatch).
  rewrite Hinit in Hinit'. injection Hinit' as <-.
  apply ControlMaster_enter_fields in Henter as (Hc & Hr & Hp & Hb & _).
  assert (Hcmd : upload_cmd master suppress_output = cmd).
  { unfold upload_cmd, cmd. rewrite Hc, Hr, Hp, Hb, Hbatch, Hpre, Hconn, Hpath.
    destruct suppress_output; simpl; rewrite <- ?app_assoc; reflexivity. }
  unfold upload. rewrite Hcmd. fold redirect.
  unfold bind, when, print, modify, open_r, run, ret.
  destruct suppress_output; simpl; rewrite Hfile; simpl; rewrite Hprocs;
    eexists; (split; [reflexivity|]); simpl; split; try reflexivity.
  rewrite <- app_assoc. reflexivity.
Qed.

Lemma upload_command_witness :
  ∃ w', upload box_master false
          (set_procs [exit_ok] (set_fs <["/tmp/k1/hosts" := File 1 "x"]> quiet))
        = (Ret true, w') ∧
        log w' =
          [Print [Txt ("ssh -o 'ControlPath=~/.ssh/kitty-master-4242-%r@%h:%p' "
                       +:+ "-o TCPKeepAlive=yes -o ControlPersist=yes "
                       +:+ "-o BatchMode=yes box cat '>' /etc/hosts")];
           Run ["ssh"; "-o"; "ControlPath=~/.ssh/kitty-master-4242-%r@%h:%p";
                "-o"; "TCPKeepAlive=yes"; "-o"; "ControlPersist=yes";
                "-o"; "BatchMode=yes"; "box"; "cat"; ">"; "/etc/hosts"]
               (FromFile "/tmp/k1/hosts") Inherit Inherit 0].
Proof.
  pose proof (fun w1' => upload_command box "/etc/hosts" quiet
               {| conn_data := box; remote_path := "/etc/hosts";
                  cmd_prefix := cmd_prefix box_master;
                  batch_cmd_prefix := batch_cmd_prefix box_master;
                  tdir := ""; dest := "" |}
               (set_procs [exit_ok; exit_ok] quiet) w1' box_master false
               (set_procs [exit_ok] (set_fs <["/tmp/k1/hosts" := File 1 "x"]> quiet))
               exit_ok [] 1 "x") as H.
  specialize (H _ eq_refl box_master_entered).
  destruct H as (w' & Hrun & _ & Hlog).
  - vm_compute. reflexivity.
  - reflexivity.
  - exists w'. split; [exact Hrun|exact Hlog].
Defined.

(** C8 fails as stated: the upload whose output is shown is run with
    [-o BatchMode=yes]. *)
Lemma upload_shown_is_batch_mode :
  let cmd := ["ssh"; "-o"; "ControlPath=~/.ssh/kitty-master-4242-%r@%h:%p";
              "-o"; "TCPKeepAlive=yes"; "-o"; "ControlPersist=yes";
              "-o"; "BatchMode=yes"; "box"; "cat"; ">"; "/etc/hosts"] in
  log (snd (upload box_master false
              (set_procs [exit_ok] (set_fs <["/tmp/k1/hosts" := File 1 "x"]> quiet))))
  = [Print [Txt (join_sp (map shlex_quote cmd))];
     Run cmd (FromFile "/tmp/k1/hosts") Inherit Inherit 0]
  ∧ cmd ≠ cmd_prefix box_master ++ ["box"; "cat"; ">"; "/etc/hosts"].
Proof. split; [reflexivity|discriminate]. Qed.

(** ** Auto-rename *)

Lemma length_app (s t : string) :
  String.length (s +:+ t) = (String.length s + String.length t)%nat.
Proof. induction s as [|c s IH]; simpl; [done|by rewrite IH]. Qed.

Lemma app_inv_tail (s1 s2 t : string) : s1 +:+ t = s2 +:+ t → s1 = s2.
Proof.
  revert s2. induction s1 as [|c s1 IH]; intros [|c2 s2] H; simpl in H.
  - done.
  - apply (f_equal String.length) in H. rewrite !length_app in H. simpl in H. lia.
  - apply (f_equal String.length) in H. rewrite !length_app in H. simpl in H. lia.
  - injection H as -> H. f_equal. by apply IH.
Qed.

(** Different counters give different names. *)
Lemma numbered_inj (d : string) : Inj (=) (=) (numbered d).
Proof.
  intros c1 c2. unfold numbered. destruct (splitext d) as [b ext]. intros H.
  apply (inj (String.app b)), (inj (String.app "-")) in H.
  apply app_inv_tail in H. by apply (inj pretty) in H.
Qed.

(** [splitext] cuts the path in two. *)
Lemma rsplit_slash_app (p : string) :
  fst (rsplit_slash p) +:+ snd (rsplit_slash p) = p.
Proof.
  induction p as [|c p IH]; simpl; [done|].
  destruct (rsplit_slash p) as [h t]. simpl in IH.
  destruct h as [|c' h].
  - destruct (is_slash c); rewrite <- IH; reflexivity.
  - rewrite <- IH. reflexivity.
Qed.

Lemma rsplit_dot_app (s b e : string) : rsplit_dot s = Some (b, e) → b +:+ e = s.
Proof.
  revert b e. induction s as [|c s IH]; intros b e H; simpl in H; [done|].
  destruct (rsplit_dot s) as [[b' e']|].
  - injection H as <- <-. rewrite <- (IH b' e' eq_refl). reflexivity.
  - destruct (is_dot c); [|done]. by injection H as <- <-.
Qed.

Lemma app_empty_r (s : string) : s +:+ "" = s.
Proof. induction s as [|c s IH]; [done|]. rewrite <- IH at 2. reflexivity. Qed.

Lemma app_assoc_str (a b c : string) : (a +:+ b) +:+ c = a +:+ (b +:+ c).
Proof.
  induction a as [|x a IH]; [done|].
  change (String x ((a +:+ b) +:+ c) = String x (a +:+ (b +:+ c))). by rewrite IH.
Qed.

Lemma splitext_app (p b ext : string) : splitext p = (b, ext) → b +:+ ext = p.
Proof.
  unfold splitext. pose proof (rsplit_slash_app p) as Hp.
  destruct (rsplit_slash p) as [h n]. simpl in Hp.
  destruct (rsplit_dot n) as [[b' e']|] eqn:Hn.
  - destruct (all_dots b'); intros [= <- <-].
    + apply app_empty_r.
    + apply rsplit_dot_app in Hn. by rewrite app_assoc_str, Hn.
  - intros [= <- <-]. apply app_empty_r.
Qed.

(** Among the first [size m + 1] numbered names one is free. *)
Lemma numbered_free_exists (m : gmap string node) (d : string) :
  ∃ c, (1 ≤ c ≤ S (size m))%nat ∧ m !! numbered d c = None.
Proof.
  destruct (decide (Forall (fun c => is_Some (m !! numbered d c)) (seq 1 (S (size m)))))
    as [Hall|Hnot].
  - exfalso.
    pose proof (numbered_inj d) as Hinj.
    assert (Hnd : NoDup (numbered d <$> seq 1 (S (size m))))
      by apply (NoDup_fmap_2 _), NoDup_seq.
    apply (size_list_to_set (C := gset string)) in Hnd.
    rewrite length_fmap, length_seq in Hnd.
    assert (Hsub : list_to_set (C := gset string) (numbered d <$> seq 1 (S (size m)))
                   ⊆ dom m).
    { intros x Hx. rewrite elem_of_list_to_set, list_elem_of_fmap in Hx.
      destruct Hx as (c & -> & Hc). apply elem_of_dom.
      rewrite Forall_forall in Hall. by apply Hall. }
    apply subseteq_size in Hsub. rewrite size_dom in Hsub. lia.
  - apply not_Forall_Exists in Hnot; [|apply _].
    apply Exists_exists in Hnot as (c & Hc & Hfree).
    exists c. apply elem_of_seq in Hc. split; [lia|].
    by apply eq_None_not_Some.
Qed.

(** ... and so there is a first free one. *)
Lemma numbered_first_free (m : gmap string node) (d : string) :
  ∃ c, (1 ≤ c ≤ S (size m))%nat ∧ m !! numbered d c = None ∧
       ∀ c', (1 ≤ c' < c)%nat → is_Some (m !! numbered d c').
Proof.
  destruct (numbered_free_exists m d) as (c0 & Hc0 & Hfree0).
  revert Hc0 Hfree0. induction (lt_wf c0) as [c0 _ IH]. intros Hc0 Hfree0.
  destruct (decide (Forall (fun c' => is_Some (m !! numbered d c')) (seq 1 (c0 - 1))))
    as [Hall|Hnot].
  - exists c0. repeat split; [lia..|done|]. intros c' Hc'.
    rewrite Forall_forall in Hall. apply Hall, elem_of_seq. lia.
  - apply not_Forall_Exists in Hnot; [|apply _].
    apply Exists_exists in Hnot as (c & Hc & Hfree).
    apply elem_of_seq in Hc. apply (IH c); [lia..|].
    by apply eq_None_not_Some.
Qed.

(** The loop walks up to the first free numbered name. *)
Lemma rename_loop_walk (m : gmap string node) (d : string) (j : nat) :
  ∀ fuel c q,
    is_Some (m !! q) →
    (∀ c', (c < c' < c + 1 + j)%nat → is_Some (m !! numbered d c')) →
    m !! numbered d (c + 1 + j) = None →
    (j + 2 ≤ fuel)%nat →
    rename_loop fuel m d q c = Some (numbered d (c + 1 + j)).
Proof.
  induction j as [|j IH]; intros fuel c q Hq Hbelow Hfree Hfuel.
  - destruct fuel as [|[|fuel]]; [lia..|]. simpl.
    rewrite (bool_decide_eq_true_2 _ Hq).
    replace (c + 1 + 0)%nat with (S c) in * by lia.
    rewrite bool_decide_eq_false_2; [done|]. rewrite Hfree. by intros [? ?].
  - destruct fuel as [|fuel]; [lia|]. simpl.
    rewrite (bool_decide_eq_true_2 _ Hq).
    replace (c + 1 + S j)%nat with (S c + 1 + j)%nat in * by lia.
    apply IH; [apply Hbelow; lia| |done|lia].
    intros c' Hc'. apply Hbelow. lia.
Qed.

(** C6: when the destination exists, auto-rename returns the name with [-c]
    put before the extension of the destination, for the least [c >= 1] whose
    name does not exist. That name does not exist, and every lower-numbered
    one does; [-0] is never tried. *)
Theorem auto_rename_first_free (d : string) (w : World) :
  is_Some (fs w !! d) →
  ∃ (c : nat) (b ext : string),
    (1 ≤ c)%nat ∧ splitext d = (b, ext) ∧ b +:+ ext = d ∧
    auto_rename d w = (Ret (b +:+ "-" +:+ pretty c +:+ ext), w) ∧
    fs w !! (b +:+ "-" +:+ pretty c +:+ ext) = None ∧
    ∀ c', (1 ≤ c' < c)%nat →
          is_Some (fs w !! (b +:+ "-" +:+ pretty c' +:+ ext)).
Proof.
  intros Hd.
  destruct (numbered_first_free (fs w) d) as (c & Hc & Hfree & Hbelow).
  destruct (splitext d) as [b ext] eqn:Hsplit.
  assert (Hnum : ∀ k, numbered d k = b +:+ "-" +:+ pretty k +:+ ext).
  { intros k. unfold numbered. by rewrite Hsplit. }
  exists c, b, ext. repeat split; [lia|by apply splitext_app| | |].
  - unfold auto_rename.
    rewrite (rename_loop_walk (fs w) d (c - 1) _ 0 d Hd).
    + rewrite <- Hnum. do 3 f_equal. lia.
    + intros c' Hc'. apply Hbelow. lia.
    + replace (0 + 1 + (c - 1))%nat with c by lia. done.
    + lia.
  - by rewrite <- Hnum.
  - intros c' Hc'. rewrite <- Hnum. by apply Hbelow.
Qed.

(** An existing [a.txt] becomes [a-1.txt], whether or not [a-0.txt] exists. *)
Lemma auto_rename_first_free_witness :
  let w := set_fs (fun m => <["a.txt" := File 0 "old"]> (<["a-0.txt" := File 0 "x"]> m))
             quiet in
  is_Some (fs w !! "a.txt") ∧
  ∃ (c : nat) (b ext : string),
    (1 ≤ c)%nat ∧ splitext "a.txt" = (b, ext) ∧ b +:+ ext = "a.txt" ∧
    auto_rename "a.txt" w = (Ret (b +:+ "-" +:+ pretty c +:+ ext), w) ∧
    fs w !! (b +:+ "-" +:+ pretty c +:+ ext) = None ∧
    ∀ c', (1 ≤ c' < c)%nat →
          is_Some (fs w !! (b +:+ "-" +:+ pretty c' +:+ ext)).
Proof.
  intros w.
  assert (H : is_Some (fs w !! "a.txt")) by (vm_compute; eauto).
  split; [exact H|]. exact (auto_rename_first_free "a.txt" w H).
Defined.

Example auto_rename_a_txt :
  let w := set_fs (fun m => <["a.txt" := File 0 "old"]> (<["a-0.txt" := File 0 "x"]> m))
             quiet in
  auto_rename "a.txt" w = (Ret "a-1.txt", w).
Proof. vm_compute. reflexivity. Qed.

Example auto_rename_skips_taken :
  let w := set_fs (fun m => <["/d/a.tar.gz" := File 0 "old"]>
                            (<["/d/a.tar-1.gz" := File 0 "x"]> m)) quiet in
  auto_rename "/d/a.tar.gz" w = (Ret "/d/a.tar-2.gz", w).
Proof. vm_compute. reflexivity. Qed.

(** ** What a piece of code may log and touch

    [sat K T m]: whatever [m] does, it appends to the log a list of events
    in [T] and leaves every file outside [K] as it was. *)

Section Sat.
Context (K : string → Prop) (T : list event → Prop) `{!Admits T}.

Lemma step_rel_refl w : step_rel K T w w.
Proof.
  split; [|done]. exists []. split; [by rewrite app_nil_r|apply admits_nil].
Qed.

Lemma step_rel_trans w1 w2 w3 : step_rel K T w1 w2 → step_rel K T w2 w3 → step_rel K T w1 w3.
Proof.
  intros [(d1 & H1 & T1) F1] [(d2 & H2 & T2) F2]. split.
  - exists (d1 ++ d2). split; [by rewrite H2, H1, app_assoc|by apply admits_app].
  - intros p Hp. by rewrite F2, F1.
Qed.

Lemma step_rel_log w w' d :
  log w' = log w ++ d → T d → fs w' = fs w → step_rel K T w w'.
Proof. intros Hlog Hd Hfs. split; [by exists d|]. intros p _. by rewrite Hfs. Qed.

Lemma step_rel_emit w e : is_upload e = false → step_rel K T w (emit e w).
Proof. intros He. split; [|done]. exists [e]. split; [done|by apply admits_other]. Qed.

Lemma step_rel_fs w f :
  (∀ p, ¬ K p → f (fs w) !! p = fs w !! p) → step_rel K T w (set_fs f w).
Proof.
  intros Hf. split; [|done]. exists []. split; [by rewrite app_nil_r|apply admits_nil].
Qed.

Lemma sat_ret {A} (a : A) : sat K T (ret a).
Proof. intros w. apply step_rel_refl. Qed.

Lemma sat_raise {A} e : sat K T (raise (A := A) e).
Proof. intros w. apply step_rel_refl. Qed.

Lemma sat_diverge {A} : sat K T (diverge (A := A)).
Proof. intros w. apply step_rel_refl. Qed.

Lemma sat_gets {A} (f : World → A) : sat K T (gets f).
Proof. intros w. apply step_rel_refl. Qed.

Lemma sat_bind {A B} (m : M A) (k : A → M B) :
  sat K T m → (∀ a, sat K T (k a)) → sat K T (bind m k).
Proof.
  intros Hm Hk w. unfold bind. specialize (Hm w).
  destruct (m w) as [[a|e|] w1]; simpl in *; [|done..].
  eapply step_rel_trans; [exact Hm|apply Hk].
Qed.

Lemma sat_when (b : bool) (m : M unit) : sat K T m → sat K T (when b m).
Proof. destruct b; [done|intros _; apply sat_ret]. Qed.

Lemma sat_try_except {A} (m : M A) handles h :
  sat K T m → (∀ e, sat K T (h e)) → sat K T (try_except m handles h).
Proof.
  intros Hm Hh w. unfold try_except. specialize (Hm w).
  destruct (m w) as [[a|e|] w1]; simpl in *; [done| |done].
  destruct (handles e); [|done].
  eapply step_rel_trans; [exact Hm|apply Hh].
Qed.

Lemma sat_try_finally {A} (m : M A) (f : M unit) :
  sat K T m → sat K T f → sat K T (try_finally m f).
Proof.
  intros Hm Hf w. unfold try_finally. specialize (Hm w).
  destruct (m w) as [[a|e|] w1]; simpl in *; [| |done];
    specialize (Hf w1); destruct (f w1) as [[[]|e'|] w2]; simpl in *;
    by eapply step_rel_trans.
Qed.

Lemma sat_print line : sat K T (print line).
Proof. intros w. by apply step_rel_emit. Qed.

Lemma sat_traceback e : sat K T (modify (emit (Traceback e))).
Proof. intros w. by apply step_rel_emit. Qed.

Lemma sat_getmtime p : sat K T (getmtime p).
Proof.
  intros w. unfold getmtime. destruct (fs w !! p) as [[]|]; apply step_rel_refl.
Qed.

Lemma sat_open_r p : sat K T (open_r p).
Proof.
  intros w. unfold open_r. destruct (fs w !! p) as [[]|]; apply step_rel_refl.
Qed.

Lemma sat_open_w p : K p → sat K T (open_w p).
Proof.
  intros Hp w. unfold open_w.
  destruct (fs w !! p) as [[]|]; simpl; try apply step_rel_refl;
    apply step_rel_fs; intros q Hq; apply lookup_insert_ne; congruence.
Qed.

Lemma sat_write p s : K p → sat K T (write p s).
Proof.
  intros Hp w. apply step_rel_fs. intros q Hq. apply lookup_insert_ne. congruence.
Qed.

Lemma sat_sleep staged t : K staged → sat K T (sleep staged t).
Proof.
  intros Hp w. unfold sleep, modify. simpl.
  assert (Hclock : step_rel K T w (set_clock (clock w + 1) w)).
  { split; [|done]. exists []. split; [by rewrite app_nil_r|apply admits_nil]. }
  destruct t; [done| |]; (eapply step_rel_trans; [exact Hclock|]);
    apply step_rel_fs; intros q Hq; simpl.
  - apply lookup_insert_ne. congruence.
  - apply lookup_delete_ne. congruence.
Qed.

Lemma sat_run cmd sin sout serr :
  (∀ p, sin ≠ FromFile p) → (∀ f, sout = ToFile f → K f) →
  sat K T (run cmd sin sout serr).
Proof.
  intros Hin Hout w. unfold run. destruct (procs w) as [|p later]; [apply step_rel_refl|].
  simpl. split.
  - exists [Run cmd sin sout serr (rc p)]. split.
    + by destruct sout.
    + apply admits_other. destruct sin; try done. by destruct (Hin p0).
  - intros q Hq. destruct sout; try done. simpl.
    apply lookup_insert_ne. intros ->. by apply Hq, Hout.
Qed.

Lemma sat_Popen cmd : sat K T (Popen cmd).
Proof.
  intros w. unfold Popen. destruct (editor_life w); [apply step_rel_refl|].
  by apply step_rel_emit.
Qed.

Lemma step_rel_stdin w l : step_rel K T w (set_stdin l w).
Proof. split; [|done]. exists []. split; [by rewrite app_nil_r|apply admits_nil]. Qed.

Lemma sat_get_key_press allowed default : sat K T (get_key_press allowed default).
Proof.
  intros w. unfold get_key_press.
  destruct (key_loop allowed default (stdin w)). apply step_rel_stdin.
Qed.

Lemma sat_show_error msg : sat K T (show_error msg).
Proof.
  unfold show_error. repeat (apply sat_bind; [apply sat_print|intros _]).
  intros w. destruct (any_key (stdin w)). apply step_rel_stdin.
Qed.

Lemma sat_input : sat K T input.
Proof.
  intros w. unfold input. destruct (typed w) as [|[s|e] later];
    [apply step_rel_refl|..]; (split; [|done]); exists [];
    (split; [by rewrite app_nil_r|apply admits_nil]).
Qed.

Lemma sat_is_alive master : sat K T (is_alive master).
Proof.
  unfold is_alive. apply sat_bind; [by apply sat_run|intros r; apply sat_ret].
Qed.

Lemma sat_download master : K (dest master) → sat K T (download master).
Proof.
  intros Hd. unfold download. apply sat_bind; [by apply sat_open_w|intros _].
  apply sat_bind; [|intros r; apply sat_ret].
  apply sat_run; [done|]. by intros f [= <-].
Qed.
End Sat.

(** ** Uploads and liveness *)

Lemma uploads_guarded_app master prev d1 d2 :
  uploads_guarded master prev (d1 ++ d2)
  = uploads_guarded master prev d1 && uploads_guarded master (last_run prev d1) d2.
Proof.
  revert prev. induction d1 as [|e d1 IH]; intros prev; simpl; [done|].
  by rewrite IH, andb_assoc.
Qed.

Global Instance self_guarded_admits master : Admits (self_guarded master).
Proof.
  split.
  - by intros prev.
  - intros d1 d2 H1 H2 prev. by rewrite uploads_guarded_app, H1, H2.
  - intros e He prev. simpl. by rewrite He.
Qed.

Global Instance anything_admits : Admits (fun _ => True).
Proof. by split. Qed.

Lemma self_guarded_after_probe master d :
  self_guarded master d → guarded_after_probe master d.
Proof. intros H prev _. apply H. Qed.

Lemma bind_assoc {A B C} (m : M A) (f : A → M B) (g : B → M C) w :
  bind (bind m f) g w = bind m (fun a => bind (f a) g) w.
Proof. unfold bind. by destruct (m w) as [[a|e|] w1]. Qed.

Section Guard.
Context (K : string → Prop) (master : ControlMaster).

(** Feeding the staged file to a child, and then code that guards its own
    uploads, is fine right after a live probe. *)
Lemma feed_after_probe {A} cmd (s : bool) (k : bool → M A) :
  let redirect := if s then DevNull else Inherit in
  (∀ b, sat K (self_guarded master) (k b)) →
  ∀ w, step_rel K (guarded_after_probe master) w
         (bind (open_r (dest master) ;;
                r <- run cmd (FromFile (dest master)) redirect redirect ;;
                ret (r =? 0)) k w).2.
Proof.
  intros redirect Hk w.
  assert (Hstop : step_rel K (guarded_after_probe master) w w).
  { split; [|done]. exists []. split; [by rewrite app_nil_r|]. by intros prev _. }
  unfold bind, open_r, run, ret.
  destruct (fs w !! dest master) as [[t|t data]|]; [exact Hstop| |exact Hstop].
  destruct (procs w) as [|p later]; [exact Hstop|].
  set (up := Run cmd (FromFile (dest master)) redirect redirect (rc p)).
  set (w1 := emit up (set_procs later w)).
  assert (Hgoal : step_rel K (guarded_after_probe master) w (k (rc p =? 0) w1).2).
  { destruct (Hk (rc p =? 0) w1) as [(d & Hlog & Hd) Hfs]. split.
    - exists ([up] ++ d). split.
      + rewrite Hlog. unfold w1. simpl. by rewrite <- app_assoc.
      + intros prev Hprev. simpl. rewrite Hprev. apply Hd.
    - intros q Hq. by rewrite Hfs. }
  unfold redirect in *. destruct s; exact Hgoal.
Qed.

(** So is an upload. *)
Lemma upload_after_probe {A} (s : bool) (k : bool → M A) :
  (∀ b, sat K (self_guarded master) (k b)) →
  ∀ w, step_rel K (guarded_after_probe master) w (bind (upload master s) k w).2.
Proof.
  intros Hk w. unfold upload. destruct s.
  - apply (feed_after_probe _ true k Hk).
  - rewrite bind_assoc. unfold bind at 1, when, print, modify. simpl.
    set (line := Print _).
    destruct (feed_after_probe (upload_cmd master false) false k Hk (emit line w))
      as [(d & Hlog & Hd) Hfs].
    split; [|done]. exists ([line] ++ d). split.
    + rewrite Hlog. simpl. by rewrite <- app_assoc.
    + intros prev Hprev. simpl. by apply Hd.
Qed.

(** A probe, and then code that is fine after a live probe if the probe
    was live, and guards its own uploads otherwise. *)
Lemma probe_then {A} (k : bool → M A) :
  sat K (self_guarded master) (k false) →
  (∀ w, step_rel K (guarded_after_probe master) w (k true w).2) →
  sat K (self_guarded master) (bind (is_alive master) k).
Proof.
  intros Hdead Hlive w. unfold is_alive, bind at 1 2, run, ret.
  destruct (procs w) as [|p later]; [apply step_rel_refl; apply _|].
  simpl. fold (probe_cmd master). fold (probe master (rc p)).
  set (w1 := emit (probe master (rc p)) (set_procs later w)).
  destruct (rc p =? 0) eqn:Hrc.
  - destruct (Hlive w1) as [(d & Hlog & Hd) Hfs]. split; [|done].
    exists ([probe master (rc p)] ++ d). split.
    + rewrite Hlog. unfold w1. simpl. by rewrite <- app_assoc.
    + intros prev. simpl. apply Hd. simpl.
      rewrite Hrc. by rewrite bool_decide_eq_true_2.
  - eapply step_rel_trans; [apply _| |apply Hdead].
    apply step_rel_log with (d := [probe master (rc p)]); [done| |done].
    by apply admits_other.
Qed.
End Guard.

(** *** The edit session guards its uploads and writes the staged file only *)

Section Session.
Context (K : string → Prop) (master : ControlMaster) (Hdest : K (dest master)).

Lemma sat_edit_poll ticks :
  ∀ mtime, sat K (self_guarded master) (edit_poll master ticks mtime).
Proof.
  induction ticks as [|t later IH]; intros mtime; simpl.
  { use @sat_ret. }
  use @sat_bind; [use sat_sleep|intros _].
  use @sat_bind; [use sat_getmtime|intros newmtime].
  destruct (newmtime >? mtime); [|apply IH].
  apply probe_then.
  - use @sat_bind; [use @sat_ret|intros _; apply IH].
  - intros w. unfold when. rewrite bind_assoc.
    apply upload_after_probe. intros _.
    use @sat_bind; [use @sat_ret|intros _; apply IH].
Qed.

Lemma sat_edit_finish rpath : sat K (self_guarded master) (edit_finish master rpath).
Proof.
  unfold edit_finish.
  use @sat_bind; [use sat_print|intros _].
  apply probe_then.
  - use sat_show_error.
  - intros w. apply upload_after_probe. intros ok.
    use sat_when. use sat_show_error.
Qed.

Lemma sat_edit_session rpath : sat K (self_guarded master) (edit_session rpath master).
Proof.
  unfold edit_session.
  use @sat_bind; [use sat_download|intros ok].
  destruct (negb ok); [use sat_show_error|].
  use @sat_bind; [use sat_getmtime|intros mtime].
  use @sat_bind; [use sat_print|intros _].
  use @sat_bind; [use @sat_gets|intros ed].
  use @sat_bind; [use sat_Popen|intros ticks].
  use @sat_bind; [use sat_edit_poll|intros _].
  apply sat_edit_finish.
Qed.
End Session.

(** What [show_error] does. *)
Lemma show_error_run msg w :
  ∃ r w', show_error msg w = (r, w') ∧ log w' = log w ++ error_screen msg ∧
          fs w' = fs w ∧ procs w' = procs w.
Proof.
  unfold show_error, bind, print, modify. simpl.
  destruct (any_key (stdin w)) as [r rest]. eexists _, _. split; [reflexivity|].
  simpl. by rewrite <- !app_assoc.
Qed.

(** The final step when the probe reports the master dead. *)
Lemma edit_finish_dead master rpath w p later :
  procs w = p :: later → rc p ≠ 0 →
  ∃ r w', edit_finish master rpath w = (r, w') ∧
    log w' = log w ++ [Print [ResetTerminal]; probe master (rc p)]
               ++ error_screen ("Failed to upload " +:+ rpath +:+ ", SSH master process died") ∧
    procs w' = later ∧ fs w' = fs w.
Proof.
  intros Hp Hrc. apply Z.eqb_neq in Hrc.
  unfold edit_finish, bind at 1 2, print, modify, is_alive, bind, run, ret. simpl.
  rewrite Hp. simpl. rewrite Hrc.
  set (w1 := emit _ _).
  destruct (show_error_run ("Failed to upload " +:+ rpath +:+ ", SSH master process died") w1)
    as (r & w' & Hrun & Hlog & Hfs & Hprocs).
  exists r, w'. split; [exact Hrun|]. rewrite Hlog, Hfs, Hprocs. unfold w1. simpl.
  by rewrite <- !app_assoc.
Qed.

(** The final step when the probe reports the master alive. *)
Lemma edit_finish_live master rpath w p u rest mt data :
  procs w = p :: u :: rest → rc p = 0 →
  fs w !! dest master = Some (File mt data) →
  ∃ r w', edit_finish master rpath w = (r, w') ∧
    log w' = log w ++ [Print [ResetTerminal]; probe master 0;
                       Print [Txt (join_sp (map shlex_quote (upload_cmd master false)))];
                       Run (upload_cmd master false) (FromFile (dest master))
                           Inherit Inherit (rc u)]
               ++ (if rc u =? 0 then []
                   else error_screen ("Failed to upload " +:+ rpath)) ∧
    procs w' = rest ∧ fs w' = fs w.
Proof.
  intros Hp Hrc Hfile.
  unfold edit_finish, is_alive, upload, bind, print, modify, when, open_r, run, ret.
  simpl. rewrite Hp. simpl. rewrite Hrc. simpl. rewrite Hfile. simpl.
  destruct (rc u =? 0); simpl.
  - eexists _, _. split; [reflexivity|]. simpl. by rewrite <- !app_assoc.
  - set (w1 := emit _ _).
    destruct (show_error_run ("Failed to upload " +:+ rpath) w1)
      as (r & w' & Hrun & Hlog & Hfs & Hprocs).
    exists r, w'. split; [exact Hrun|]. rewrite Hlog, Hfs, Hprocs. unfold w1. simpl.
    by rewrite <- !app_assoc.
Qed.

(** C2: at the final step, a probe that fails is followed by the
    connection-lost error screen and by no other child (no upload); a probe
    that succeeds is followed by the upload whose command line is echoed and
    whose output is shown, and by the upload error screen if that child fails. *)
Theorem final_upload_step master rpath w p later :
  procs w = p :: later →
  ∃ r w', edit_finish master rpath w = (r, w') ∧
    (rc p ≠ 0 →
       log w' = log w ++ [Print [ResetTerminal]; probe master (rc p)]
                  ++ error_screen ("Failed to upload " +:+ rpath
                                   +:+ ", SSH master process died") ∧
       procs w' = later) ∧
    (rc p = 0 → ∀ u rest mt data,
       later = u :: rest → fs w !! dest master = Some (File mt data) →
       log w' = log w ++ [Print [ResetTerminal]; probe master 0;
                          Print [Txt (join_sp (map shlex_quote (upload_cmd master false)))];
                          Run (upload_cmd master false) (FromFile (dest master))
                              Inherit Inherit (rc u)]
                  ++ (if rc u =? 0 then []
                      else error_screen ("Failed to upload " +:+ rpath))).
Proof.
  intros Hp. destruct (edit_finish master rpath w) as [r w'] eqn:E.
  exists r, w'. split; [done|]. split.
  - intros Hrc.
    destruct (edit_finish_dead master rpath w p later Hp Hrc)
      as (r0 & w0 & E0 & Hlog & Hprocs & _).
    rewrite E in E0. by injection E0 as <- <-.
  - intros Hrc u rest mt data -> Hfile.
    destruct (edit_finish_live master rpath w p u rest mt data Hp Hrc Hfile)
      as (r0 & w0 & E0 & Hlog & _).
    rewrite E in E0. by injection E0 as <- <-.
Qed.

Lemma final_upload_step_witness :
  let w := set_stdin [Byte " "] (set_procs [exit_fail] quiet) in
  ∃ r w', edit_finish box_master "/etc/hosts" w = (r, w') ∧
          log w' = [Print [ResetTerminal]; probe box_master 255;
                    Print [Styled "Failed to upload /etc/hosts, SSH master process died"
                                  "fg=red"];
                    Print []; Print [Txt "Press any key to exit..."]] ∧
          procs w' = [].
Proof.
  intros w.
  destruct (final_upload_step box_master "/etc/hosts" w exit_fail [] eq_refl)
    as (r & w' & E & Hdead & _).
  exists r, w'. split; [exact E|]. apply Hdead. discriminate.
Defined.

(** A session in which the master dies after the first save: the first save
    is uploaded silently, the second is not, and the final step reports. *)
Example liveness_lost_while_editing :
  let w := with_editor (inr [Save 5 "one"; Save 6 "two"])
             (set_stdin [Byte " "]
                (set_procs [exit_ok; exit_ok; cat_hosts; exit_ok; exit_ok;
                            exit_fail; exit_fail; exit_ok] quiet)) in
  let '(r, w') := handle_action "edit" (opts_for (Some (Fields box))) w in
  r = Ret None ∧
  filter (fun e => is_upload e) (log w')
  = [Run (upload_cmd box_master true) (FromFile "/tmp/k1/hosts") DevNull DevNull 0] ∧
  filter (fun e => is_report e) (log w')
  = [Print [Styled "Failed to upload /etc/hosts, SSH master process died" "fg=red"]].
Proof. vm_compute. repeat split. Qed.

(** ** Uploads happen after live probes only *)

Lemma uploads_guarded_same_probe m1 m2 prev d :
  probe_cmd m1 = probe_cmd m2 →
  uploads_guarded m1 prev d = uploads_guarded m2 prev d.
Proof.
  intros Heq. revert prev. induction d as [|e d IH]; intros prev; simpl; [done|].
  rewrite IH. f_equal. destruct (is_upload e); [|done].
  unfold is_live_probe. by rewrite Heq.
Qed.

Lemma step_rel_same_probe K m1 m2 w w' :
  probe_cmd m1 = probe_cmd m2 →
  step_rel K (self_guarded m1) w w' → step_rel K (self_guarded m2) w w'.
Proof.
  intros Heq [(d & Hlog & Hd) Hfs]. split; [|done]. exists d. split; [done|].
  intros prev. rewrite <- (uploads_guarded_same_probe m1 m2) by done. apply Hd.
Qed.

Section Anywhere.
Context (T : list event → Prop) `{!Admits T}.
Let K : string → Prop := fun _ => True.

Lemma step_rel_anywhere w w' : log w' = log w → step_rel K T w w'.
Proof.
  intros Hlog. split; [|by intros p []]. exists [].
  split; [by rewrite app_nil_r|apply admits_nil].
Qed.

Lemma sat_check_call cmd : sat K T (check_call cmd).
Proof.
  unfold check_call. use @sat_bind; [use sat_run; done|intros r].
  destruct (r =? 0); [use @sat_ret|use @sat_raise].
Qed.

Lemma sat_mkdtemp : sat K T mkdtemp.
Proof.
  intros w. unfold mkdtemp.
  destruct (first_fresh (fs w) (tmpnames w)) as [[d names]|]; by apply step_rel_anywhere.
Qed.

Lemma sat_rmtree d : sat K T (rmtree d).
Proof.
  intros w. unfold rmtree. destruct (fs w !! d) as [[]|]; by apply step_rel_anywhere.
Qed.

Lemma sat_enter self : sat K T (ControlMaster_enter self).
Proof.
  unfold ControlMaster_enter.
  use @sat_bind; [use sat_check_call|intros _].
  use @sat_bind; [use sat_check_call|intros _].
  use @sat_bind; [use sat_mkdtemp|intros d]. use @sat_ret.
Qed.

Lemma sat_exit master : sat K T (ControlMaster_exit master).
Proof.
  unfold ControlMaster_exit.
  use @sat_bind; [use sat_run; done|intros _].
  use @sat_bind; [use sat_rmtree|intros _]. use @sat_ret.
Qed.
End Anywhere.

(** The whole [with] statement of the edit flow. *)
Lemma with_session_guarded conn rpath w self :
  ControlMaster_init conn rpath w = (Ret self, w) →
  step_rel (fun _ => True) (self_guarded self) w
    (with_ControlMaster conn rpath (edit_session rpath) w).2.
Proof.
  intros Hinit. unfold with_ControlMaster. unfold bind at 1. rewrite Hinit.
  unfold bind at 1.
  pose proof (sat_enter (self_guarded self) self w) as Henter.
  destruct (ControlMaster_enter self w) as [[master|e|] w1] eqn:He; [|done..].
  apply ControlMaster_enter_fields in He as (Hc & _ & _ & Hb & _).
  assert (Hprobe : probe_cmd master = probe_cmd self).
  { unfold probe_cmd. by rewrite Hc, Hb. }
  assert (Hbody : step_rel (fun _ => True) (self_guarded self) w1
                    (edit_session rpath master w1).2).
  { apply (step_rel_same_probe _ master); [done|].
    by apply sat_edit_session. }
  simpl in Henter.
  destruct (edit_session rpath master w1) as [[[]|e|] w2]; simpl in Hbody.
  - eapply step_rel_trans; [apply _|exact Henter|].
    eapply step_rel_trans; [apply _|exact Hbody|].
    use @sat_bind; [use sat_exit|intros _; use @sat_ret].
  - eapply step_rel_trans; [apply _|exact Henter|].
    eapply step_rel_trans; [apply _|exact Hbody|].
    use @sat_bind; [use sat_exit|intros []; [use @sat_ret|use @sat_raise]].
  - eapply step_rel_trans; [apply _|exact Henter|exact Hbody].
Qed.

(** C1, as the code has it: in an edit session every upload is the next child
    after a liveness probe that reported alive, so a dead report holds back
    the upload it guards and no more; and when the probe of the final step
    reports dead, the user is told so and no child is run after it. *)
Theorem uploads_follow_live_probes conn rpath w :
  (∃ self d,
     ControlMaster_init conn rpath w = (Ret self, w) ∧
     log (with_ControlMaster conn rpath (edit_session rpath) w).2 = log w ++ d ∧
     uploads_guarded self None d = true)
  ∧ (∀ master w1 p later,
       procs w1 = p :: later → rc p ≠ 0 →
       ∃ r w', edit_finish master rpath w1 = (r, w') ∧
         log w' = log w1 ++ [Print [ResetTerminal]; probe master (rc p)]
                    ++ error_screen ("Failed to upload " +:+ rpath
                                     +:+ ", SSH master process died") ∧
         procs w' = later).
Proof.
  split.
  - destruct (ControlMaster_init_prefixes conn rpath w) as (self & Hinit & _).
    destruct (with_session_guarded conn rpath w self Hinit) as [(d & Hlog & Hd) _].
    exists self, d. split; [done|]. split; [done|apply Hd].
  - intros master w1 p later Hp Hrc.
    destruct (edit_finish_dead master rpath w1 p later Hp Hrc)
      as (r & w' & E & Hlog & Hprocs & _).
    by exists r, w'.
Qed.

Lemma uploads_follow_live_probes_witness :
  let w := with_editor (inr [Save 5 "one"; Save 6 "two"])
             (set_stdin [Byte " "]
                (set_procs [exit_ok; exit_ok; cat_hosts; exit_ok; exit_ok;
                            exit_fail; exit_fail; exit_ok] quiet)) in
  ∃ d, log (with_ControlMaster box "/etc/hosts" (edit_session "/etc/hosts") w).2 = d ∧
       uploads_guarded box_master None d = true.
Proof.
  intros w.
  destruct (uploads_follow_live_probes box "/etc/hosts" w)
    as [(self & d & Hinit & Hlog & Hd) _].
  exists d. split; [exact Hlog|].
  rewrite <- (uploads_guarded_same_probe self box_master); [exact Hd|].
  vm_compute in Hinit. by injection Hinit as <-.
Defined.

(** C1 fails as stated: the probe after the first save reports dead, the probe
    of the final step reports alive again, and the final upload is made; the
    user is told nothing. *)
Lemma upload_after_dead_report :
  let w := with_editor (inr [Save 5 "edited"])
             (set_procs [exit_ok; exit_ok; cat_hosts; exit_fail; exit_ok;
                         exit_ok; exit_ok] quiet) in
  let '(r, w') := handle_action "edit" (opts_for (Some (Fields box))) w in
  r = Ret None ∧
  filter (fun e => is_run e) (drop 3 (log w'))
  = [Run (batch_cmd_prefix box_master ++ ["box"; "cat"; "/etc/hosts"])
         DevNull (ToFile "/tmp/k1/hosts") DevNull 0;
     probe box_master 255;
     probe box_master 0;
     Run (upload_cmd box_master false) (FromFile "/tmp/k1/hosts") Inherit Inherit 0;
     Run (batch_cmd_prefix box_master ++ ["-O"; "exit"; "box"])
         DevNull DevNull DevNull 0] ∧
  no_upload_once_dead box_master false (log w') = false ∧
  filter (fun e => is_report e) (log w') = [].
Proof. vm_compute. repeat split. Qed.

(** ** Closing the session *)

(** [__enter__] leaves the scratch directory on disk. *)
Lemma enter_makes_tdir self master w w1 :
  ControlMaster_enter self w = (Ret master, w1) →
  ∃ t, fs w1 !! tdir master = Some (Dir t).
Proof.
  unfold ControlMaster_enter, bind, ret. intros H.
  destruct (check_call _ w) as [[[]|e|] wa]; try discriminate.
  destruct (check_call _ wa) as [[[]|e|] wb]; try discriminate.
  unfold mkdtemp in H.
  destruct (first_fresh (fs wb) (tmpnames wb)) as [[d names]|]; [|discriminate].
  injection H as <- <-. simpl. exists (clock wb). apply lookup_insert_eq.
Qed.

(** The session body never replaces or removes the scratch directory itself. *)
Lemma edit_session_keeps_tdir rpath master w t :
  fs w !! tdir master = Some (Dir t) →
  fs (edit_session rpath master w).2 !! tdir master = Some (Dir t).
Proof.
  intros Hdir. destruct (decide (dest master = tdir master)) as [Heq|Hne].
  - unfold edit_session, download, bind at 1 2, open_w. by rewrite Heq, Hdir.
  - destruct (sat_edit_session (fun p => p = dest master) master eq_refl rpath w)
      as [_ Hfs].
    rewrite Hfs; [done|congruence].
Qed.

(** [__exit__], once its child has ended, has removed the directory and
    all below it. *)
Lemma exit_removes_scratch master w r w' t :
  fs w !! tdir master = Some (Dir t) →
  ControlMaster_exit master w = (r, w') → r ≠ Diverge →
  r = Ret true ∧ ∀ p, under (tdir master) p = true → fs w' !! p = None.
Proof.
  intros Hdir. unfold ControlMaster_exit, bind, run, rmtree, ret.
  destruct (procs w) as [|c later]; [by intros [= <- <-]|].
  simpl. rewrite Hdir. intros [= <- <-] _. split; [done|].
  intros p Hp. simpl. apply map_lookup_filter_None. right.
  intros x _. simpl. by rewrite Hp.
Qed.

(** C3: once the session is entered for the edit flow, however its body ends
    (normally, after a failed download or upload, or with an exception),
    leaving the [with] statement removes the scratch directory and all below
    it, and the statement ends normally. *)
Theorem session_close_removes_scratch conn rpath w master w1 r w' :
  (self <- ControlMaster_init conn rpath ;; ControlMaster_enter self) w
    = (Ret master, w1) →
  with_ControlMaster conn rpath (edit_session rpath) w = (r, w') →
  r ≠ Diverge →
  r = Ret tt ∧ ∀ p, under (tdir master) p = true → fs w' !! p = None.
Proof.
  intros Henter Hrun Hr.
  destruct (ControlMaster_init_prefixes conn rpath w) as (self & Hinit & _).
  unfold bind in Henter. rewrite Hinit in Henter.
  destruct (ControlMaster_enter self w) as [[m|e|] w1'] eqn:He; try discriminate.
  injection Henter as -> ->.
  unfold with_ControlMaster in Hrun. unfold bind at 1 in Hrun. rewrite Hinit in Hrun.
  unfold bind at 1 in Hrun. rewrite He in Hrun.
  destruct (enter_makes_tdir _ _ _ _ He) as (t & Hdir).
  pose proof (edit_session_keeps_tdir rpath master w1 t Hdir) as Hkept.
  destruct (edit_session rpath master w1) as [[[]|e|] w2]; simpl in Hkept;
    [| |by injection Hrun as <- <-];
    unfold bind, ret in Hrun;
    destruct (ControlMaster_exit master w2) as [r2 w3] eqn:Hexit;
    (assert (Hr2 : r2 ≠ Diverge) by (intros ->; by injection Hrun as <- <-));
    destruct (exit_removes_scratch master w2 r2 w3 t Hkept Hexit Hr2) as (-> & Hgone);
    by injection Hrun as <- <-.
Qed.

(** The body raises (the editor has removed the staged file), and the
    scratch directory is gone afterwards. *)
Lemma session_close_removes_scratch_witness :
  let w := with_editor (inr [Unlink])
             (set_procs [exit_ok; exit_ok; cat_hosts; exit_ok] quiet) in
  (∃ w2, edit_session "/etc/hosts" box_master
           (set_fs <["/tmp/k1" := Dir 1]> (set_tmpnames ["/tmp/k2"] w))
         = (Raise FileNotFoundError, w2)) ∧
  ∃ w', with_ControlMaster box "/etc/hosts" (edit_session "/etc/hosts") w = (Ret tt, w') ∧
        ∀ p, under "/tmp/k1" p = true → fs w' !! p = None.
Proof.
  intros w. split; [eexists; vm_compute; reflexivity|].
  destruct (with_ControlMaster box "/etc/hosts" (edit_session "/etc/hosts") w)
    as [r w'] eqn:Hrun.
  assert (Hr : r ≠ Diverge) by (vm_compute in Hrun; by injection Hrun as <- _).
  destruct (session_close_removes_scratch box "/etc/hosts" w box_master
              (emit (Run (batch_cmd_prefix box_master ++ ["-O"; "check"; "box"])
                         Inherit Inherit Inherit 0)
                 (emit (Run (cmd_prefix box_master
                             ++ ["-o"; "ControlMaster=auto"; "-fN"; "box"])
                            Inherit Inherit Inherit 0)
                    (set_fs <["/tmp/k1" := Dir 1]>
                       (set_tmpnames ["/tmp/k2"] (set_procs [cat_hosts; exit_ok] w)))))
              r w' eq_refl Hrun Hr) as (-> & Hgone).
  by exists w'.
Defined.

Example scratch_removed_after_failed_download :
  let w := set_stdin [Byte " "] (set_procs [exit_ok; exit_ok; exit_fail; exit_ok] quiet) in
  let '(r, w') := handle_action "edit" (opts_for (Some (Fields box))) w in
  r = Ret None ∧ fs w' !! "/tmp/k1" = None ∧ fs w' !! "/tmp/k1/hosts" = None ∧
  filter (fun e => is_report e) (log w')
  = [Print [Styled "Failed to download /etc/hosts" "fg=red"]].
Proof. vm_compute. repeat split. Qed.

Example scratch_removed_after_failed_upload :
  let w := set_stdin [Byte " "]
             (set_procs [exit_ok; exit_ok; cat_hosts; exit_ok; exit_fail; exit_ok] quiet) in
  let '(r, w') := handle_action "edit" (opts_for (Some (Fields box))) w in
  r = Ret None ∧ fs w' !! "/tmp/k1" = None ∧ fs w' !! "/tmp/k1/hosts" = None ∧
  filter (fun e => is_report e) (log w')
  = [Print [Styled "Failed to upload /etc/hosts" "fg=red"]].
Proof. vm_compute. repeat split. Qed.

(** ** Unhandled exceptions *)

(** What [main] does with an exception of [handle_action]. *)
Lemma main_reports_exceptions cli_opts w action w1 e w2 :
  (print [SetCursorVisible false] ;;
   try_finally (ask_action cli_opts) (print [ResetTerminal])) w = (Ret action, w1) →
  handle_action action cli_opts w1 = (Raise e, w2) →
  is_Exception e = true →
  ∃ r w', main (Parsed cli_opts) w = (r, w') ∧
          log w' = log w2 ++ [Print [ResetTerminal]; Traceback e]
                     ++ error_screen "Failed with unhandled exception".
Proof.
  intros Hask Hrun He. unfold main.
  unfold bind at 1. unfold ret at 1.
  rewrite <- bind_assoc. unfold bind at 1. rewrite Hask.
  unfold try_except. rewrite Hrun, He.
  unfold bind at 1 2, print, modify. simpl.
  set (w3 := emit _ _).
  destruct (show_error_run "Failed with unhandled exception" w3)
    as (r & w' & Hs & Hlog & _).
  assert (Hw' : log w' = log w2 ++ [Print [ResetTerminal]; Traceback e]
                          ++ error_screen "Failed with unhandled exception").
  { rewrite Hlog. unfold w3. simpl. by rewrite <- !app_assoc. }
  unfold bind, ret. rewrite Hs.
  destruct r; eexists _, _; (split; [reflexivity|exact Hw']).
Qed.

(** C4 at a failing input: the editor removes the staged file, so the body of
    the edit session raises [FileNotFoundError]; [__exit__] returns [True],
    the exception never reaches [main], and the user is told nothing. *)
Theorem edit_exception_is_swallowed :
  let w := with_editor (inr [Unlink])
             (set_stdin [Byte "e"]
                (set_procs [exit_ok; exit_ok; cat_hosts; exit_ok] quiet)) in
  (∃ w2, edit_session "/etc/hosts" box_master
           (set_fs <["/tmp/k1" := Dir 1]> (set_tmpnames ["/tmp/k2"] w))
         = (Raise FileNotFoundError, w2)) ∧
  let '(r, w') := main (Parsed (opts_for (Some (Fields box)))) w in
  r = Ret None ∧ filter (fun e => is_report e) (log w') = [] ∧
  fs w' !! "/tmp/k1/hosts" = None.
Proof. split; [eexists|]; vm_compute; repeat split. Qed.

(** The open flow shows the sibling behaviour: its exception is reported. *)
Example open_exception_is_reported :
  let w := set_tmpnames [] (set_stdin [Byte "o"; Byte " "] (set_procs [cat_hosts] quiet)) in
  let '(r, w') := main (Parsed (opts_for (Some (Fields box)))) w in
  r = Ret None ∧
  filter (fun e => is_report e) (log w')
  = [Traceback FileExistsError;
     Print [Styled "Failed with unhandled exception" "fg=red"]].
Proof. vm_compute. repeat split. Qed.

(** ** The last-used directory *)

Lemma rstrip_slash_length (s : string) :
  (String.length (rstrip_slash s) ≤ String.length s)%nat.
Proof.
  induction s as [|c s IH]; simpl; [done|].
  destruct (rstrip_slash s); [destruct (is_slash c)|]; simpl in *; lia.
Qed.

Lemma dirname_length (p : string) :
  (String.length (dirname p) ≤ String.length p)%nat.
Proof.
  unfold dirname. pose proof (rsplit_slash_app p) as Hp.
  apply (f_equal String.length) in Hp. rewrite length_app in Hp.
  pose proof (rstrip_slash_length (fst (rsplit_slash p))) as Hs.
  destruct (rstrip_slash (fst (rsplit_slash p))); simpl in *; lia.
Qed.

(** [makedirs] creates the directory and directories above it: nothing with
    a longer name. *)
Lemma makedirs_fs_frame fuel clk :
  ∀ name m m', makedirs_fs fuel clk name m = inr m' →
    ∀ k, (String.length name < String.length k)%nat → m' !! k = m !! k.
Proof.
  induction fuel as [|fuel IH]; intros name m m' H k Hk; simpl in H;
    destruct (m !! name) as [[]|] eqn:Hname; try discriminate;
    try (by injection H as <-).
  - injection H as <-. apply lookup_insert_ne. intros ->. lia.
  - destruct (bool_decide (dirname name ≠ "") && bool_decide (dirname name ≠ name)).
    + destruct (makedirs_fs fuel clk (dirname name) m) as [e|m1] eqn:Hup.
      { by destruct e. }
      injection H as <-. rewrite lookup_insert_ne by (intros ->; lia).
      apply (IH _ _ _ Hup). pose proof (dirname_length name). lia.
    + injection H as <-. apply lookup_insert_ne. intros ->. lia.
Qed.

Lemma store_longer (ddir : string) :
  (String.length ddir < String.length (last_used_store ddir))%nat.
Proof.
  unfold last_used_store, join. simpl.
  destruct (bool_decide (ddir = "") || ends_with_slash ddir);
    rewrite !length_app; simpl; lia.
Qed.


(** The prompt left empty gives the default under the last-used directory,
    unless the cache directory cannot be made. *)
Lemma ask_destination_default rpath w t last_used later :
  fs w !! last_used_store (cachedir w) = Some (File t last_used) →
  typed w = Typed "" :: later →
  (∃ e, fst (ask_destination rpath w) = Raise e)
  ∨ fst (ask_destination rpath w) = Ret (Some (join last_used (basename rpath))).
Proof.
  intros Hs Ht. unfold ask_destination, bind, gets, makedirs.
  destruct (makedirs_fs (String.length (cachedir w)) (clock w) (cachedir w) (fs w))
    as [e|m] eqn:Hmk; [left; by exists e|].
  assert (Hm : m !! last_used_store (cachedir w) = fs w !! last_used_store (cachedir w)).
  { apply (makedirs_fs_frame _ _ _ _ _ Hmk), store_longer. }
  unfold try_except, open_r, print, modify, input, ret. simpl.
  rewrite Hm, Hs. simpl. rewrite Ht. simpl. by right.
Qed.

(** The spec's scenario: destination left empty, nothing at the default; the
    copy is made, no menu is shown, the marker is as before. *)
Example save_blank_keeps_marker :
  let w := set_typed [Typed ""]
             (set_procs [cat_hosts]
                (set_fs <["/cache/remote-file-last-used.txt" := File 0 "/home/u/dl"]> quiet)) in
  let '(r, w') := save_as box "/etc/hosts" w in
  r = Ret tt ∧
  fs w' !! "/cache/remote-file-last-used.txt" = Some (File 0 "/home/u/dl") ∧
  fs w' !! "/home/u/dl/hosts" = Some (File 1 "127.0.0.1 localhost") ∧
  log w' = [Print [Txt "Where do you wish to save the file? Leaving it blank will save it as:";
                   Txt " "; Styled "/home/u/dl/hosts" "fg=yellow"];
            Print [Txt "Relative paths will be resolved from:"; Txt " ";
                   Styled "/home/u" "fg_intense bold"];
            Print [];
            Run ["ssh"; "box"; "cat"; "/etc/hosts"] Inherit (ToFile "/home/u/dl/hosts")
                Inherit 0].
Proof. vm_compute. repeat split. Qed.

(** The spec's scenario: an existing file typed, overwrite chosen; the file
    gets the remote contents and the marker the directory typed. *)
Example save_typed_overwrite_updates_marker :
  let w := set_typed [Typed "/home/u/docs/notes"]
             (set_stdin [Byte "O"]
                (set_procs [cat_hosts]
                   (set_fs (fun m =>
                      <["/cache/remote-file-last-used.txt" := File 0 "/home/u/dl"]>
                        (<["/home/u/docs/notes" := File 0 "old"]> m)) quiet))) in
  let '(r, w') := save_as box "/etc/hosts" w in
  r = Ret tt ∧
  fs w' !! "/cache/remote-file-last-used.txt" = Some (File 1 "/home/u/docs") ∧
  fs w' !! "/home/u/docs/notes" = Some (File 1 "127.0.0.1 localhost").
Proof. vm_compute. repeat split. Qed.

(** ** The restarts of [save_as] *)

(** "New name" asks again; auto-rename then avoids the names taken. *)
Example save_new_name_then_rename :
  let w := set_typed [Typed "/home/u/a.txt"; Typed "/home/u/b.txt"]
             (set_stdin [Byte "n"; Byte "r"]
                (set_procs [cat_hosts]
                   (set_fs (fun m => <["/home/u/a.txt" := File 0 "a"]>
                                       (<["/home/u/b.txt" := File 0 "b"]>
                                          (<["/home/u/b-1.txt" := File 0 "b1"]> m)))
                      quiet))) in
  let '(r, w') := save_as box "/etc/hosts" w in
  r = Ret tt ∧
  fs w' !! "/home/u/a.txt" = Some (File 0 "a") ∧
  fs w' !! "/home/u/b.txt" = Some (File 0 "b") ∧
  fs w' !! "/home/u/b-1.txt" = Some (File 0 "b1") ∧
  fs w' !! "/home/u/b-2.txt" = Some (File 1 "127.0.0.1 localhost").
Proof. vm_compute. repeat split. Qed.

Lemma bind_ext_on {A B} (m : M A) (k1 k2 : A → M B) w :
  (∀ a w1, m w = (Ret a, w1) → k1 a w1 = k2 a w1) → bind m k1 w = bind m k2 w.
Proof. intros H. unfold bind. destruct (m w) as [[a|e|] w1]; auto. Qed.

(** A destination is only ever given after a line has been typed. *)
Lemma ask_destination_takes_a_line rpath w d w1 :
  ask_destination rpath w = (Ret (Some d), w1) →
  (length (typed w1) < length (typed w))%nat.
Proof.
  unfold ask_destination, bind, gets, makedirs, try_except, open_r, print, modify,
    input, isdir, open_w, write, ret.
  destruct (makedirs_fs _ _ _ _) as [e|m]; [done|]. simpl.
  destruct (m !! last_used_store (cachedir w)) as [[t|t data]|] eqn:Hs; simpl; [done| |];
    (destruct (typed w) as [|[s|e] later]; simpl;
     [done| |destruct (is_interrupt e); done]);
    (destruct s as [|c s]; simpl; [intros [= _ <-]; simpl; lia|]);
    rewrite Hs; simpl; intros [= _ <-]; simpl; lia.
Qed.

(** More fuel than typed lines is as good as any other such amount. *)
Lemma save_as_rec_fuel conn rpath :
  ∀ f1 f2 w,
    (length (typed w) < f1)%nat → (length (typed w) < f2)%nat →
    save_as_rec f1 conn rpath w = save_as_rec f2 conn rpath w.
Proof.
  induction f1 as [|f1 IH]; intros [|f2] w H1 H2; try lia. simpl.
  apply bind_ext_on. intros [d|] w1 Hask; [|done].
  apply ask_destination_takes_a_line in Hask.
  apply bind_ext_on. intros taken w2 Htaken.
  assert (typed w2 = typed w1) as Ht2.
  { unfold path_exists, gets in Htaken. by injection Htaken as _ <-. }
  destruct taken; [|done].
  rewrite <- !bind_assoc. apply bind_ext_on. intros response w3 Hkey.
  assert (typed w3 = typed w2) as Ht3.
  { unfold bind, print, modify, get_key_press in Hkey. simpl in Hkey.
    destruct (key_loop _ _ _). by injection Hkey as _ <-. }
  destruct (bool_decide (response = "a")); [done|].
  destruct (bool_decide (response = "n")); [|done].
  apply bind_ext_on. intros [] w4 Hprint.
  assert (typed w4 = typed w3) as Ht4.
  { unfold print, modify in Hprint. by injection Hprint as <-. }
  apply IH; rewrite Ht4, Ht3, Ht2; lia.
Qed.

(** * Further properties *)

(** ** The key reader *)

Lemma key_loop_pass allowed pre :
  ∀ response rest,
    Forall (fun q => passed_over allowed q = true) pre →
    key_loop allowed response (pre ++ rest)
    = key_loop allowed (pending response pre) rest.
Proof.
  induction pre as [|q pre IH]; intros response rest Hpre; [done|].
  apply Forall_cons in Hpre as [Hq Hpre]. simpl.
  destruct q as [b| |e]; simpl in Hq; [|by apply IH|done].
  apply andb_true_iff in Hq as [Hend Hc]. apply negb_true_iff in Hend.
  rewrite Hend. destruct (decode1 b) as [c|]; [|by apply IH].
  apply negb_true_iff in Hc. rewrite Hc. by apply IH.
Qed.

(** What is pending after such reads is what was pending before, or a key
    that is not allowed. *)
Lemma pending_rejected allowed pre :
  ∀ response,
    Forall (fun q => passed_over allowed q = true) pre →
    pending response pre = response
    ∨ ∃ c, pending response pre = str1 c ∧ contains c allowed = false.
Proof.
  induction pre as [|q pre IH]; intros response Hpre; [by left|].
  apply Forall_cons in Hpre as [Hq Hpre]. simpl.
  destruct q as [b| |e]; simpl in Hq; [|by apply IH|done].
  apply andb_true_iff in Hq as [_ Hc].
  destruct (decode1 b) as [c|]; [|by apply IH].
  apply negb_true_iff in Hc.
  destruct (IH (str1 (lower c)) Hpre) as [->|Hrej]; [|by right].
  right. by exists (lower c).
Qed.

(** X1: keys that are not allowed are passed over, and the first allowed key is
    the answer, in lower case; what follows it is left unread. *)
Theorem get_key_press_first_allowed allowed default w pre b c later :
  stdin w = pre ++ Byte b :: later →
  Forall (fun q => passed_over allowed q = true) pre →
  b ≠ ESC → b ≠ CTRL_C → decode1 b = Some c →
  contains (lower c) allowed = true →
  get_key_press allowed default w = (Ret (str1 (lower c)), set_stdin later w).
Proof.
  intros Hin Hpre Hesc Hctrl Hdec Hc. unfold get_key_press.
  rewrite Hin, (key_loop_pass allowed pre _ _ Hpre). simpl.
  rewrite !bool_decide_eq_false_2 by done. simpl. by rewrite Hdec, Hc.
Qed.

Lemma get_key_press_first_allowed_witness :
  get_key_press "anor" "a"
    (set_stdin [NoData; Byte "x"; Byte "200"; Byte "R"; Byte "o"] quiet)
  = (Ret "r", set_stdin [Byte "o"] quiet).
Proof.
  apply (get_key_press_first_allowed "anor" "a"
           (set_stdin [NoData; Byte "x"; Byte "200"; Byte "R"; Byte "o"] quiet)
           [NoData; Byte "x"; Byte "200"] "R"%char "R"%char [Byte "o"]); try done.
  repeat constructor.
Defined.


(** X3: in the action menu, Escape, Ctrl-C or an interrupt means "cancel",
    whatever keys that are not on the menu were pressed before. *)
Theorem ask_action_escape_cancels opts w pre q later :
  stdin w = pre ++ q :: later →
  Forall (fun q => passed_over "ceos" q = true) pre →
  ends_loop q = true →
  ∃ w', ask_action opts w = (Ret "cancel", w') ∧ stdin w' = later ∧ fs w' = fs w.
Proof.
  intros Hin Hpre Hq. unfold ask_action.
  repeat (unfold bind at 1; unfold print at 1, modify at 1; simpl).
  unfold bind, get_key_press, ret. simpl. rewrite Hin.
  rewrite (key_loop_pass "ceos" pre _ _ Hpre).
  assert (Hloop : key_loop "ceos" (pending "c" pre) (q :: later)
                  = (Ret (pending "c" pre), later)).
  { destruct q as [b| |e]; simpl in *; [|done|]; by rewrite Hq. }
  rewrite Hloop.
  assert (Hact : (if bool_decide (pending "c" pre = "e") then "edit"
                  else if bool_decide (pending "c" pre = "o") then "open"
                  else if bool_decide (pending "c" pre = "s") then "save"
                  else "cancel") = "cancel").
  { destruct (pending_rejected "ceos" pre "c" Hpre) as [->|(c & -> & Hc)]; [done|].
    simpl in Hc.
    apply orb_false_iff in Hc as [_ Hc]. apply orb_false_iff in Hc as [He Hc].
    apply orb_false_iff in Hc as [Ho Hc]. apply orb_false_iff in Hc as [Hs _].
    apply bool_decide_eq_false in He, Ho, Hs.
    rewrite !bool_decide_eq_false_2; [done|..]; unfold str1; intros [= Hc']; by subst. }
  rewrite Hact. by eexists.
Qed.

Lemma ask_action_escape_cancels_witness :
  ∃ w', ask_action (opts_for (Some (Fields box)))
          (set_stdin [Byte "x"; NoData; Byte ESC; Byte "e"] quiet)
        = (Ret "cancel", w') ∧ stdin w' = [Byte "e"] ∧ fs w' = fs quiet.
Proof.
  apply (ask_action_escape_cancels _
           (set_stdin [Byte "x"; NoData; Byte ESC; Byte "e"] quiet)
           [Byte "x"; NoData] (Byte ESC) [Byte "e"]); [done| |done].
  repeat constructor.
Defined.

(** ** Rules for [always] *)

Section Always.
Context (R : relation World) `{!PreOrder R}.

Lemma always_ret {A} (a : A) : always R (ret a).
Proof. intros w. reflexivity. Qed.

Lemma always_raise {A} e : always R (raise (A := A) e).
Proof. intros w. reflexivity. Qed.

Lemma always_gets {A} (f : World → A) : always R (gets f).
Proof. intros w. reflexivity. Qed.

Lemma always_bind {A B} (m : M A) (k : A → M B) :
  always R m → (∀ a, always R (k a)) → always R (bind m k).
Proof.
  intros Hm Hk w. unfold bind. specialize (Hm w).
  destruct (m w) as [[a|e|] w1]; simpl in *; [|done..].
  etrans; [exact Hm|apply Hk].
Qed.

Lemma always_when (b : bool) (m : M unit) : always R m → always R (when b m).
Proof. destruct b; [done|intros _; apply always_ret]. Qed.

Lemma always_try_except {A} (m : M A) handles h :
  always R m → (∀ e, always R (h e)) → always R (try_except m handles h).
Proof.
  intros Hm Hh w. unfold try_except. specialize (Hm w).
  destruct (m w) as [[a|e|] w1]; simpl in *; [done| |done].
  destruct (handles e); [|done]. etrans; [exact Hm|apply Hh].
Qed.

Lemma always_getmtime p : always R (getmtime p).
Proof. intros w. unfold getmtime. by destruct (fs w !! p) as [[]|]. Qed.

Lemma always_open_r p : always R (open_r p).
Proof. intros w. unfold open_r. by destruct (fs w !! p) as [[]|]. Qed.
End Always.

Global Instance silent_preorder : PreOrder silent.
Proof.
  split.
  - intros w. exists []. by rewrite app_nil_r.
  - intros w1 w2 w3 (d1 & H1 & F1) (d2 & H2 & F2). exists (d1 ++ d2).
    split; [by rewrite H2, H1, app_assoc|by apply Forall_app].
Qed.

Global Instance keeps_files_preorder K : PreOrder (keeps_files K).
Proof.
  split; [by intros w p n|].
  intros w1 w2 w3 H1 H2 p n Hp Hn. by apply H2, H1.
Qed.

(** ** Polling while the editor runs *)

Lemma silent_same_log w w' : log w' = log w → silent w w'.
Proof. intros H. exists []. by rewrite app_nil_r. Qed.

Lemma always_silent_run cmd sin sout serr : always silent (run cmd sin sout serr).
Proof.
  intros w. unfold run. destruct (procs w) as [|p later]; [reflexivity|].
  exists [Run cmd sin sout serr (rc p)]. split; [by destruct sout|by repeat constructor].
Qed.

(** X4: while the editor runs nothing is printed, whatever the probes report and
    whether the uploads succeed or fail: the log grows by children only. *)
Theorem edit_poll_is_silent master ticks mtime : always silent (edit_poll master ticks mtime).
Proof.
  revert mtime. induction ticks as [|t later IH]; intros mtime; simpl.
  { apply always_ret, _. }
  apply always_bind; [apply _| |intros _].
  { intros w. apply silent_same_log. unfold sleep, modify. by destruct t. }
  apply always_bind; [apply _|apply always_getmtime, _|intros newmtime].
  destruct (newmtime >? mtime); [|apply IH].
  apply always_bind; [apply _| |intros alive].
  { unfold is_alive. apply always_bind; [apply _|apply always_silent_run|].
    intros r. apply always_ret, _. }
  apply always_bind; [apply _| |intros _; apply IH].
  apply always_when; [apply _|].
  apply always_bind; [apply _| |intros _; apply always_ret, _].
  unfold upload. simpl.
  apply always_bind; [apply _|apply always_ret, _|intros _].
  apply always_bind; [apply _|apply always_open_r, _|intros _].
  apply always_bind; [apply _|apply always_silent_run|intros r; apply always_ret, _].
Qed.

(** X5: as long as the staged file gets no later modification time, polling runs
    no child at all: no probe and no upload. *)
Theorem edit_poll_without_changes master ticks :
  ∀ mtime w t data,
    fs w !! dest master = Some (File t data) → t ≤ mtime →
    Forall (fun k => not_newer mtime k = true) ticks →
    ∃ w', edit_poll master ticks mtime w = (Ret tt, w') ∧
          procs w' = procs w ∧ log w' = log w.
Proof.
  induction ticks as [|k later IH]; intros mtime w t data Hfile Ht Hticks; simpl.
  { by exists w. }
  apply Forall_cons in Hticks as [Hk Hticks].
  unfold bind at 1, sleep, modify. simpl.
  set (w1 := match k with
             | Idle => set_clock (clock w + 1) w
             | Save mt d => set_fs <[dest master := File mt d]> (set_clock (clock w + 1) w)
             | Unlink => set_fs (delete (dest master)) (set_clock (clock w + 1) w)
             end).
  assert (H1 : ∃ t1 data1, fs w1 !! dest master = Some (File t1 data1) ∧ t1 ≤ mtime
                           ∧ procs w1 = procs w ∧ log w1 = log w).
  { unfold w1. destruct k as [|mt d|]; simpl in *; [by exists t, data| |done].
    exists mt, d. rewrite lookup_insert_eq. repeat split; [|done..]. lia. }
  destruct H1 as (t1 & data1 & Hfile1 & Ht1 & Hprocs1 & Hlog1).
  unfold bind at 1, getmtime. rewrite Hfile1.
  replace (t1 >? mtime) with false by (symmetry; rewrite Z.gtb_ltb; apply Z.ltb_ge; lia).
  destruct (IH mtime w1 t1 data1 Hfile1 Ht1 Hticks) as (w' & Hrun & Hprocs & Hlog).
  exists w'. by rewrite Hrun, Hprocs, Hlog.
Qed.

Lemma edit_poll_without_changes_witness :
  let w := set_procs [exit_ok] (set_fs <["/tmp/k1/hosts" := File 5 "x"]> quiet) in
  ∃ w', edit_poll box_master [Idle; Save 4 "y"; Idle; Save 5 "z"] 5 w = (Ret tt, w') ∧
        procs w' = [exit_ok] ∧ log w' = [].
Proof.
  intros w.
  apply (edit_poll_without_changes box_master [Idle; Save 4 "y"; Idle; Save 5 "z"]
           5 w 5 "x"); [by vm_compute|lia|].
  repeat constructor.
Defined.

(** ** Liveness that does not come back *)

Lemma guarded_latch master l :
  ∀ prev dead,
    uploads_guarded master prev l = true →
    stays_dead master dead l = true →
    (dead = true → is_live_probe master prev = false) →
    no_upload_once_dead master dead l = true.
Proof.
  induction l as [|e l IH]; intros prev dead Hg Hs Hinv; simpl in *; [done|].
  apply andb_true_iff in Hg as [Hup Hg]. apply andb_true_iff in Hs as [Hlive Hs].
  apply andb_true_iff. split.
  - destruct dead; [|done]. simpl. destruct (is_upload e); [|done].
    by rewrite Hinv in Hup.
  - apply (IH _ _ Hg Hs). intros Hdead.
    destruct dead; simpl in *.
    + apply negb_true_iff in Hlive. destruct (is_run e); [done|by apply Hinv].
    + destruct e as [| |cmd [] [] [] r|]; try done. simpl in *.
      apply andb_true_iff in Hdead as [-> Hr]. apply negb_true_iff in Hr.
      by rewrite Hr.
Qed.

(** X6: if the master, once a probe has reported it dead, is never reported alive
    again, then no upload is made after the first dead report in the whole
    edit session. *)
Theorem no_upload_after_lasting_death conn rpath w :
  ∃ self d,
    ControlMaster_init conn rpath w = (Ret self, w) ∧
    log (with_ControlMaster conn rpath (edit_session rpath) w).2 = log w ++ d ∧
    (stays_dead self false d = true → no_upload_once_dead self false d = true).
Proof.
  destruct (ControlMaster_init_prefixes conn rpath w) as (self & Hinit & _).
  destruct (with_session_guarded conn rpath w self Hinit) as [(d & Hlog & Hd) _].
  exists self, d. split; [done|]. split; [done|]. intros Hs.
  by apply (guarded_latch self d None false (Hd None) Hs).
Qed.

Lemma no_upload_after_lasting_death_witness :
  let w := with_editor (inr [Save 5 "one"; Save 6 "two"])
             (set_stdin [Byte " "]
                (set_procs [exit_ok; exit_ok; cat_hosts; exit_ok; exit_ok;
                            exit_fail; exit_fail; exit_ok] quiet)) in
  ∃ d, log (with_ControlMaster box "/etc/hosts" (edit_session "/etc/hosts") w).2 = d ∧
       stays_dead box_self false d = true ∧
       no_upload_once_dead box_self false d = true.
Proof.
  intros w.
  destruct (no_upload_after_lasting_death box "/etc/hosts" w)
    as (self & d & Hinit & Hlog & Hlatch).
  assert (Hself : self = box_self) by (vm_compute in Hinit; by injection Hinit as <-).
  subst self. exists d. split; [exact Hlog|].
  assert (Hs : stays_dead box_self false d = true).
  { simpl in Hlog. rewrite <- Hlog. vm_compute. reflexivity. }
  split; [exact Hs|exact (Hlatch Hs)].
Defined.

(** ** Entering the session *)

Lemma first_fresh_free m names d rest :
  first_fresh m names = Some (d, rest) → m !! d = None.
Proof.
  induction names as [|n names IH]; simpl; [done|].
  destruct (m !! n) eqn:Hn; [done|]. by intros [= <- <-].
Qed.

Lemma check_call_outcome cmd w :
  match procs w with
  | [] => check_call cmd w = (Diverge, w)
  | p :: later =>
      check_call cmd w
      = (if rc p =? 0 then Ret tt else Raise (CalledProcessError (rc p)),
         emit (Run cmd Inherit Inherit Inherit (rc p)) (set_procs later w))
  end.
Proof.
  unfold check_call, bind, run, ret, raise. destruct (procs w) as [|p later]; [done|].
  simpl. by destruct (rc p =? 0).
Qed.



(** ** Base names *)

Lemma rsplit_slash_free (b : string) :
  slash_free b = true → rsplit_slash b = ("", b).
Proof.
  induction b as [|c b IH]; simpl; [done|]. intros H.
  apply andb_true_iff in H as [Hc Hb]. apply negb_true_iff in Hc.
  by rewrite (IH Hb), Hc.
Qed.

Lemma rsplit_slash_tail_free (p : string) : slash_free (snd (rsplit_slash p)) = true.
Proof.
  induction p as [|c p IH]; simpl; [done|].
  destruct (rsplit_slash p) as [h t]. simpl in IH.
  destruct h; [|done]. destruct (is_slash c) eqn:Hc; simpl; [done|by rewrite Hc].
Qed.

Lemma rsplit_slash_after (x b : string) :
  slash_free b = true → rsplit_slash (x +:+ "/" +:+ b) = (x +:+ "/", b).
Proof.
  intros Hb. induction x as [|c x IH].
  - change (rsplit_slash (String "/" b) = ("/", b)). simpl.
    by rewrite (rsplit_slash_free b Hb).
  - change (rsplit_slash (String c (x +:+ "/" +:+ b)) = (String c (x +:+ "/"), b)).
    simpl. rewrite IH. by destruct x.
Qed.

Lemma rev_app_last (s acc : string) c r :
  String.rev_app s acc = String c r →
  (s = "" ∧ acc = String c r) ∨ ∃ x, s = x +:+ String c "".
Proof.
  revert acc. induction s as [|a s IH]; intros acc H; simpl in H; [by left|].
  right. destruct (IH _ H) as [[-> [= -> _]]|(x & ->)].
  - by exists "".
  - by exists (String a x).
Qed.

Lemma ends_with_slash_inv (a : string) :
  ends_with_slash a = true → ∃ x, a = x +:+ "/".
Proof.
  unfold ends_with_slash, String.rev.
  destruct (String.rev_app a "") as [|c r] eqn:Hrev; [done|]. intros Hc.
  apply bool_decide_eq_true in Hc as ->.
  by destruct (rev_app_last _ _ _ _ Hrev) as [[_ ?]|(x & ->)]; [|exists x].
Qed.

(** A file put under a directory by its remote base name has that base name. *)
Lemma basename_join_basename (d rpath : string) :
  basename (join d (basename rpath)) = basename rpath.
Proof.
  pose proof (rsplit_slash_tail_free rpath) as Hfree. fold (basename rpath) in Hfree.
  set (b := basename rpath) in *. unfold join.
  assert (Hstart : starts_with_slash b = false).
  { destruct b as [|c b]; [done|]. simpl in *.
    apply andb_true_iff in Hfree as [Hc _]. by apply negb_true_iff in Hc. }
  rewrite Hstart. destruct (bool_decide (d = "")) eqn:Hd; simpl.
  - apply bool_decide_eq_true in Hd as ->. unfold basename.
    change ("" +:+ b) with b. by rewrite rsplit_slash_free.
  - destruct (ends_with_slash d) eqn:He.
    + apply ends_with_slash_inv in He as (x & ->). unfold basename.
      rewrite app_assoc_str. change ("/" +:+ b) with ("/" +:+ b).
      by rewrite rsplit_slash_after.
    + unfold basename. by rewrite rsplit_slash_after.
Qed.

(** X8: on success, [__enter__] has made a scratch directory that did not exist
    before and touched nothing else; the staged file is to lie in it under
    the base name of the remote path. *)
Theorem enter_makes_fresh_scratch self master w w1 :
  ControlMaster_enter self w = (Ret master, w1) →
  fs w !! tdir master = None ∧
  (∃ t, fs w1 !! tdir master = Some (Dir t)) ∧
  (∀ p, p ≠ tdir master → fs w1 !! p = fs w !! p) ∧
  dest master = join (tdir master) (basename (remote_path self)) ∧
  basename (dest master) = basename (remote_path self).
Proof.
  unfold ControlMaster_enter. unfold bind at 1.
  pose proof (check_call_outcome
                (cmd_prefix self ++ ["-o"; "ControlMaster=auto"; "-fN";
                                     hostname (conn_data self)]) w) as H1.
  destruct (procs w) as [|p later]; rewrite H1; [done|]. clear H1.
  destruct (rc p =? 0); [|done]. unfold bind at 1.
  set (wa := emit _ _).
  pose proof (check_call_outcome
                (batch_cmd_prefix self ++ ["-O"; "check"; hostname (conn_data self)])
                wa) as H2.
  destruct (procs wa) as [|q rest]; rewrite H2; [done|]. clear H2.
  destruct (rc q =? 0); [|done]. unfold bind, mkdtemp, ret.
  set (wb := emit _ _).
  assert (Hfs : fs wb = fs w) by done.
  destruct (first_fresh (fs wb) (tmpnames wb)) as [[d names]|] eqn:Hfresh; [|done].
  intros [= <- <-]. simpl. apply first_fresh_free in Hfresh.
  rewrite Hfs in Hfresh. split; [done|]. split.
  { eexists. apply lookup_insert_eq. }
  split; [|split; [done|apply basename_join_basename]].
  intros p0 Hp0. by rewrite lookup_insert_ne.
Qed.

Lemma enter_makes_fresh_scratch_witness :
  fs (set_procs [exit_ok; exit_ok] quiet) !! tdir box_master = None ∧
  basename (dest box_master) = "hosts".
Proof.
  destruct (enter_makes_fresh_scratch _ _ _ _ box_master_entered)
    as (Hfree & _ & _ & _ & Hbase).
  split; [exact Hfree|exact Hbase].
Defined.

(** ** The open flow *)



(** ** A download that fails *)



(** ** The top level *)

Lemma bind_ret_inv {A B} (m : M A) (k : A → M B) w x w' :
  bind m k w = (Ret x, w') → ∃ a w1, m w = (Ret a, w1) ∧ k a w1 = (Ret x, w').
Proof.
  unfold bind. destruct (m w) as [[a|e|] w1]; [|done..]. intros H. by exists a, w1.
Qed.

(** X11: once the action is chosen, an exception of [handle_action] that derives
    from [Exception] ends in a traceback and the error screen, and [main]
    gives no result once a key is pressed; [KeyboardInterrupt] and
    [SystemExit] are not caught and leave [main] as they are. *)
Theorem main_exception_boundary cli_opts w action w1 e w2 :
  (print [SetCursorVisible false] ;;
   try_finally (ask_action cli_opts) (print [ResetTerminal])) w = (Ret action, w1) →
  handle_action action cli_opts w1 = (Raise e, w2) →
  ∃ r w', main (Parsed cli_opts) w = (r, w') ∧
    if is_Exception e
    then log w' = log w2 ++ [Print [ResetTerminal]; Traceback e]
                    ++ error_screen "Failed with unhandled exception" ∧
         (∀ later, any_key (stdin w2) = (Ret tt, later) → r = Ret None)
    else r = Raise e ∧ w' = w2.
Proof.
  intros Hask Hrun. unfold main.
  unfold bind at 1. unfold ret at 1.
  rewrite <- bind_assoc. unfold bind at 1. rewrite Hask.
  unfold try_except. rewrite Hrun.
  destruct (is_Exception e); [|by eexists _, _].
  unfold bind at 1 2, print, modify. simpl.
  unfold show_error, bind, print, modify, ret. simpl.
  destruct (any_key (stdin w2)) as [[[]|e'|] rest] eqn:Hkey;
    eexists _, _; (split; [reflexivity|]); simpl;
    (split; [by rewrite <- !app_assoc|]); by intros later [= _].
Qed.

Lemma main_exception_boundary_witness :
  let w := set_tmpnames [] (set_stdin [Byte "o"; Byte " "] (set_procs [cat_hosts] quiet)) in
  ∃ r w', main (Parsed (opts_for (Some (Fields box)))) w = (r, w') ∧ r = Ret None ∧
          filter (fun e => is_report e) (log w')
          = [Traceback FileExistsError;
             Print [Styled "Failed with unhandled exception" "fg=red"]].
Proof.
  intros w.
  pose proof (fun w1 w2 => main_exception_boundary (opts_for (Some (Fields box))) w
                             "open" w1 FileExistsError w2) as H.
  edestruct H as (r & w' & Hmain & Hlog & Hkey).
  - vm_compute. reflexivity.
  - vm_compute. reflexivity.
  - exists r, w'. split; [exact Hmain|]. split.
    + apply (Hkey []). reflexivity.
    + simpl in Hlog. rewrite Hlog. vm_compute. reflexivity.
Defined.

(** X12: only the open action gives a path back: whatever the other actions do,
    their result is never a path, so nothing is handed on to be opened. *)
Theorem only_open_returns_path action cli_opts w p w' :
  handle_action action cli_opts w = (Ret (Some p), w') → action = "open".
Proof.
  unfold handle_action. intros H.
  apply bind_ret_inv in H as (c & w1 & _ & H).
  destruct (bool_decide (action = "open")) eqn:Hopen;
    [by apply bool_decide_eq_true in Hopen|].
  exfalso. destruct (bool_decide (action = "edit")).
  - apply bind_ret_inv in H as (? & w2 & _ & H).
    by apply bind_ret_inv in H as (? & w3 & _ & H).
  - destruct (bool_decide (action = "save")); [|done].
    apply bind_ret_inv in H as (? & w2 & _ & H).
    by apply bind_ret_inv in H as (? & w3 & _ & H).
Qed.

Lemma only_open_returns_path_witness :
  ∃ w', handle_action "open" (opts_for (Some (Fields box)))
          (set_procs [cat_hosts] quiet) = (Ret (Some "/tmp/k1/hosts"), w')
        ∧ "open" = "open".
Proof.
  eexists. split; [vm_compute; reflexivity|].
  eapply (only_open_returns_path "open" (opts_for (Some (Fields box)))
            (set_procs [cat_hosts] quiet) "/tmp/k1/hosts").
  vm_compute. reflexivity.
Defined.

(** ** What saving leaves alone *)

Lemma makedirs_fs_keeps fuel clk :
  ∀ name m m', makedirs_fs fuel clk name m = inr m' →
    ∀ k x, m !! k = Some x → m' !! k = Some x.
Proof.
  induction fuel as [|fuel IH]; intros name m m' H k x Hk; simpl in H;
    destruct (m !! name) as [[]|] eqn:Hname; try discriminate;
    try (by injection H as <-).
  - injection H as <-. rewrite lookup_insert_ne; [done|congruence].
  - destruct (bool_decide (dirname name ≠ "") && bool_decide (dirname name ≠ name)).
    + destruct (makedirs_fs fuel clk (dirname name) m) as [e|m1] eqn:Hup.
      { by destruct e. }
      injection H as <-. rewrite lookup_insert_ne by congruence.
      by apply (IH _ _ _ Hup).
    + injection H as <-. rewrite lookup_insert_ne; [done|congruence].
Qed.

Lemma keeps_same_fs K w w' : fs w' = fs w → keeps_files K w w'.
Proof. intros H p n _. by rewrite H. Qed.

Lemma always_keeps_makedirs K name : always (keeps_files K) (makedirs name).
Proof.
  intros w. unfold makedirs.
  destruct (makedirs_fs _ _ _ _) as [e|m] eqn:Hmk; [by apply keeps_same_fs|].
  intros p n _ Hn. simpl. by apply (makedirs_fs_keeps _ _ _ _ _ Hmk).
Qed.

Lemma always_keeps_show_error K msg : always (keeps_files K) (show_error msg).
Proof.
  intros w. destruct (show_error_run msg w) as (r & w' & Hs & _ & Hfs & _).
  rewrite Hs. by apply keeps_same_fs.
Qed.

Lemma always_keeps_save_to conn rpath d :
  always (keeps_files (fun p => p = d)) (save_to conn rpath d).
Proof.
  unfold save_to.
  apply always_bind; [apply _| |intros _].
  { apply always_when; [apply _|apply always_keeps_makedirs]. }
  apply always_bind; [apply _| |intros ok].
  - unfold save_output.
    apply always_bind; [apply _| |intros _].
    { intros w p n Hp Hn. unfold open_w.
      destruct (fs w !! d) as [[]|]; simpl; try done;
        rewrite lookup_insert_ne; congruence. }
    apply always_bind; [apply _| |intros r; apply always_ret, _].
    intros w p n Hp Hn. unfold run. destruct (procs w) as [|c later]; [done|].
    simpl. rewrite lookup_insert_ne; congruence.
  - apply always_when; [apply _|apply always_keeps_show_error].
Qed.

(** X13: the copy to the destination changes no entry of the file system but the
    destination: every other file and directory that was there is still
    there, unchanged, whether the copy succeeds or fails. *)
Theorem save_to_keeps_other_files conn rpath d w p n :
  p ≠ d → fs w !! p = Some n → fs (save_to conn rpath d w).2 !! p = Some n.
Proof.
  intros Hp Hn. by apply (always_keeps_save_to conn rpath d w p n).
Qed.

Lemma save_to_keeps_other_files_witness :
  let w := set_procs [cat_hosts] (set_fs <["/tmp/other" := File 0 "mine"]> quiet) in
  fs (save_to box "/etc/hosts" "/tmp/hosts" w).2 !! "/tmp/other" = Some (File 0 "mine").
Proof.
  intros w.
  apply (save_to_keeps_other_files box "/etc/hosts" "/tmp/hosts" w "/tmp/other");
    [discriminate|]. vm_compute. reflexivity.
Defined.

Lemma rename_loop_free fuel m d :
  ∀ q c q', rename_loop fuel m d q c = Some q' → m !! q' = None.
Proof.
  induction fuel as [|fuel IH]; intros q c q'; simpl; [done|].
  destruct (bool_decide (is_Some (m !! q))) eqn:Hq; [apply IH|].
  intros [= <-]. apply bool_decide_eq_false in Hq. by apply eq_None_not_Some.
Qed.

(** X14: auto-rename and the copy after it destroy nothing: every file and
    directory that was there before is still there, unchanged. *)
Theorem auto_rename_overwrites_nothing conn rpath d w :
  keeps_files (fun _ => False) w
    ((q <- auto_rename d ;; save_to conn rpath q) w).2.
Proof.
  unfold bind, auto_rename.
  destruct (rename_loop _ _ _ _ _) as [q|] eqn:Hloop; [|done].
  apply rename_loop_free in Hloop. intros p n _ Hn.
  apply (always_keeps_save_to conn rpath q w p n); [|done].
  intros ->. by rewrite Hloop in Hn.
Qed.



(** ** Ways out of [save_as] without a copy *)

(** [makedirs] fails only because a file is in the way. *)
Lemma makedirs_fs_error fuel clk :
  ∀ name m e, makedirs_fs fuel clk name m = inl e →
    e = FileExistsError ∨ e = NotADirectoryError.
Proof.
  induction fuel as [|fuel IH]; intros name m e; simpl;
    destruct (m !! name) as [[]|]; try discriminate; try (intros [= <-]; by left).
  destruct (bool_decide (dirname name ≠ "") && bool_decide (dirname name ≠ name));
    [|discriminate].
  destruct (makedirs_fs fuel clk (dirname name) m) as [y|] eqn:Hup; [|discriminate].
  destruct (IH _ _ _ Hup) as [->| ->]; intros [= <-]; by right.
Qed.


(** X16: when the destination exists and the answer at the conflict menu is
    "abort" (the key, or Escape with nothing pressed before), [save_as]
    returns without running the copy: the existing file and everything else
    on disk stay as they were after the prompt. *)
Theorem abort_copies_nothing conn rpath fuel w d w1 later :
  ask_destination rpath w = (Ret (Some d), w1) →
  is_Some (fs w1 !! d) →
  key_loop "anor" "a" (stdin w1) = (Ret "a", later) →
  ∃ w', save_as_rec (S fuel) conn rpath w = (Ret tt, w') ∧
        fs w' = fs w1 ∧ procs w' = procs w1 ∧
        Forall (fun e => is_run e = false) (drop (length (log w1)) (log w')).
Proof.
  intros Hask Hd Hkey. simpl. unfold bind at 1. rewrite Hask.
  unfold bind at 1, path_exists, gets. rewrite (bool_decide_eq_true_2 _ Hd).
  unfold bind, print, modify, get_key_press, ret. simpl. rewrite Hkey. simpl.
  eexists. split; [reflexivity|]. simpl. repeat split.
  rewrite <- !app_assoc, drop_app_length. repeat constructor.
Qed.

Lemma abort_copies_nothing_witness :
  let w := set_typed [Typed "/home/u/notes"]
             (set_stdin [Byte ESC]
                (set_procs [cat_hosts]
                   (set_fs <["/home/u/notes" := File 0 "precious"]> quiet))) in
  ∃ w', save_as_rec 1 box "/etc/hosts" w = (Ret tt, w') ∧
        fs w' !! "/home/u/notes" = Some (File 0 "precious") ∧ procs w' = [cat_hosts].
Proof.
  intros w.
  destruct (ask_destination "/etc/hosts" w) as [r1 w1] eqn:Hask.
  vm_compute in Hask. injection Hask as <- <-.
  edestruct (abort_copies_nothing box "/etc/hosts" 0 w "/home/u/notes")
    as (w' & Hrun & Hfs & Hprocs & _).
  - vm_compute. reflexivity.
  - vm_compute. eauto.
  - vm_compute. reflexivity.
  - exists w'. split; [exact Hrun|]. rewrite Hfs, Hprocs.
    split; vm_compute; reflexivity.
Defined.

(** X17: when the prompt for the destination is interrupted (Ctrl-C or end of
    input), [save_as] ends without running any child: no copy is made, the
    marker file is as it was, every file that existed is unchanged, and the
    interrupt is not passed on. *)
Theorem interrupted_prompt_copies_nothing conn rpath w e later :
  typed w = InputRaises e :: later → is_interrupt e = true →
  ∃ r w', save_as conn rpath w = (r, w') ∧
    match r with
    | Ret _ => True
    | Raise x => is_interrupt x = false
    | Diverge => False
    end ∧
    procs w' = procs w ∧
    keeps_files (fun _ => False) w w' ∧
    fs w' !! last_used_store (cachedir w) = fs w !! last_used_store (cachedir w).
Proof.
  intros Ht He. unfold save_as. rewrite Ht. simpl.
  unfold bind at 1, ask_destination, bind, gets, makedirs.
  destruct (makedirs_fs (String.length (cachedir w)) (clock w) (cachedir w) (fs w))
    as [x|m] eqn:Hmk.
  - eexists _, _. split; [reflexivity|]. simpl. repeat split; [|done].
    by destruct (makedirs_fs_error _ _ _ _ _ Hmk) as [->| ->].
  - assert (Hm : m !! last_used_store (cachedir w) = fs w !! last_used_store (cachedir w)).
    { apply (makedirs_fs_frame _ _ _ _ _ Hmk), store_longer. }
    assert (Hkeeps : ∀ p n, fs w !! p = Some n → m !! p = Some n).
    { intros p n. by apply (makedirs_fs_keeps _ _ _ _ _ Hmk). }
    unfold try_except, open_r, print, modify, input, ret. simpl.
    rewrite Hm.
    destruct (fs w !! last_used_store (cachedir w)) as [[t|t data]|] eqn:Hs; simpl.
    + eexists _, _. split; [reflexivity|]. simpl. repeat split; [|done].
      intros p n _. apply Hkeeps.
    + rewrite Ht. simpl. rewrite He. simpl.
      eexists _, _. split; [reflexivity|]. simpl. repeat split; [|done].
      intros p n _. apply Hkeeps.
    + rewrite Ht. simpl. rewrite He. simpl.
      eexists _, _. split; [reflexivity|]. simpl. repeat split; [|done].
      intros p n _. apply Hkeeps.
Qed.

Lemma interrupted_prompt_copies_nothing_witness :
  ∃ w', save_as box "/etc/hosts"
          (set_typed [InputRaises KeyboardInterrupt] (set_procs [cat_hosts] quiet))
        = (Ret tt, w') ∧ procs w' = [cat_hosts].
Proof.
  destruct (interrupted_prompt_copies_nothing box "/etc/hosts"
              (set_typed [InputRaises KeyboardInterrupt] (set_procs [cat_hosts] quiet))
              KeyboardInterrupt [] eq_refl eq_refl)
    as (r & w' & Hrun & _ & Hprocs & _).
  exists w'. split; [|exact Hprocs].
  rewrite Hrun. f_equal. vm_compute in Hrun. by injection Hrun as <- _.
Defined.

(** ** One control path for each process *)

(** X18: the control path carries the process id, so the masters of two processes
    have different command prefixes and different liveness probes. *)
Theorem control_path_per_process conn rpath w1 w2 s1 s2 :
  ControlMaster_init conn rpath w1 = (Ret s1, w1) →
  ControlMaster_init conn rpath w2 = (Ret s2, w2) →
  pid w1 ≠ pid w2 →
  cmd_prefix s1 ≠ cmd_prefix s2 ∧ probe_cmd s1 ≠ probe_cmd s2.
Proof.
  intros H1 H2 Hpid.
  destruct (ControlMaster_init_prefixes conn rpath w1) as (s1' & H1' & _ & _ & Hp1 & Hb1).
  destruct (ControlMaster_init_prefixes conn rpath w2) as (s2' & H2' & _ & _ & Hp2 & Hb2).
  rewrite H1 in H1'. injection H1' as <-. rewrite H2 in H2'. injection H2' as <-.
  assert (Hpath : ∀ l1 l2,
            [binary conn; "-o";
             "ControlPath=~/.ssh/kitty-master-" +:+ str (pid w1) +:+ "-%r@%h:%p"] ++ l1
            ≠ [binary conn; "-o";
               "ControlPath=~/.ssh/kitty-master-" +:+ str (pid w2) +:+ "-%r@%h:%p"] ++ l2).
  { intros l1 l2 [= H _]. apply Hpid.
    change (str (pid w1) +:+ "-%r@%h:%p" = str (pid w2) +:+ "-%r@%h:%p") in H.
    apply app_inv_tail in H. by apply (inj pretty) in H. }
  split.
  - rewrite Hp1, Hp2. apply (Hpath _ _).
  - unfold probe_cmd. rewrite Hb1, Hb2, Hp1, Hp2. rewrite <- !app_assoc.
    apply (Hpath _ _).
Qed.

Lemma control_path_per_process_witness :
  cmd_prefix box_self
  ≠ ["ssh"; "-o"; "ControlPath=~/.ssh/kitty-master-4243-%r@%h:%p";
     "-o"; "TCPKeepAlive=yes"; "-o"; "ControlPersist=yes"].
Proof.
  pose (w2 := {| fs := fs quiet; clock := 1; stdin := []; typed := []; procs := [];
                 editor_life := inr []; tmpnames := []; log := []; pid := 4243;
                 editor := ["vi"]; cachedir := "/cache"; tempdir := "/tmp";
                 cwd := "/home/u"; expand := expand quiet; abspath := abspath quiet |}).
  exact (proj1 (control_path_per_process box "/etc/hosts" quiet w2 box_self
                  {| conn_data := box; remote_path := "/etc/hosts";
                     cmd_prefix := ["ssh"; "-o";
                                    "ControlPath=~/.ssh/kitty-master-4243-%r@%h:%p";
                                    "-o"; "TCPKeepAlive=yes"; "-o"; "ControlPersist=yes"];
                     batch_cmd_prefix := ["ssh"; "-o";
                                          "ControlPath=~/.ssh/kitty-master-4243-%r@%h:%p";
                                          "-o"; "TCPKeepAlive=yes"; "-o";
                                          "ControlPersist=yes"; "-o"; "BatchMode=yes"];
                     tdir := ""; dest := "" |}
                  eq_refl eq_refl ltac:(discriminate))).
Defined.
